(** * FlowScope eBPF programs: a shallow embedding and its properties

    The development embeds the two eBPF objects of the repository,
    [src/ebpf/egress_monitor.c] and [src/ebpf/flow_tracker.c], as Rocq
    functions over explicit map state, and proves the properties of the
    flow-tracking core about them.

    Conventions.
    - A [__u8]/[__u16]/[__u32]/[__u64] value is a [Z]; arithmetic that can
      leave the range of its type is wrapped explicitly ([add64]).
    - Packet memory is a [list byte]; [skb->data] is offset 0 and
      [skb->data_end] is the length of the list.
    - A BPF hash map is a [gmap] together with its [max_entries]; a BPF
      array map is a [list]; a BPF ring buffer is the list of the records
      that were submitted and not yet consumed.
    - Values obtained from kernel helpers (clock, current task) are inputs
      of the hooks. *)

From Stdlib Require Import ZArith Lia Bool List.
From Stdlib Require Import Init.Byte.
From stdpp Require Import base numbers option list countable gmap fin_maps.

Local Open Scope Z_scope.

(** ** Machine integers *)

(** Unsigned 64-bit addition, the arithmetic of [__sync_fetch_and_add] on a
    [__u64]. *)
Definition add64 (a b : Z) : Z := (a + b) mod 2 ^ 64.

(** Value of a packet byte as a [__u8]. *)
Definition u8 (b : byte) : Z := Z.of_N (Byte.to_N b).

(** ** Byte order ([bpf/bpf_endian.h]) *)

(** The macros of [bpf_endian.h] compile to a byte swap on a little-endian
    target and to the identity on a big-endian one. *)
Inductive byte_order : Set := LittleEndian | BigEndian.

Definition bswap16 (x : Z) : Z :=
  Z.lor (Z.shiftl (Z.land x 0xFF) 8) (Z.land (Z.shiftr x 8) 0xFF).

Definition bswap32 (x : Z) : Z :=
  Z.lor (Z.shiftl (Z.land x 0xFF) 24)
 (Z.lor (Z.shiftl (Z.land (Z.shiftr x 8) 0xFF) 16)
 (Z.lor (Z.shiftl (Z.land (Z.shiftr x 16) 0xFF) 8)
        (Z.land (Z.shiftr x 24) 0xFF))).

Definition bpf_ntohs (bo : byte_order) (x : Z) : Z :=
  match bo with LittleEndian => bswap16 x | BigEndian => x end.

Definition bpf_htons (bo : byte_order) (x : Z) : Z :=
  match bo with LittleEndian => bswap16 x | BigEndian => x end.

Definition bpf_ntohl (bo : byte_order) (x : Z) : Z :=
  match bo with LittleEndian => bswap32 x | BigEndian => x end.

(** ** Packet memory *)

(** The part of [struct __sk_buff] the programs read: the linear packet
    bytes between [data] and [data_end], and the packet length [len]. *)
Record sk_buff : Type := {
  skb_data : list byte;
  skb_len : Z
}.

Definition load8 (data : list byte) (off : Z) : Z :=
  u8 (nth (Z.to_nat off) data x00).

(** A native 16-bit load: the two bytes in the byte order of the target. *)
Definition load16 (bo : byte_order) (data : list byte) (off : Z) : Z :=
  match bo with
  | LittleEndian => Z.lor (load8 data off) (Z.shiftl (load8 data (off + 1)) 8)
  | BigEndian => Z.lor (Z.shiftl (load8 data off) 8) (load8 data (off + 1))
  end.

Definition load32 (bo : byte_order) (data : list byte) (off : Z) : Z :=
  match bo with
  | LittleEndian =>
      Z.lor (load16 bo data off) (Z.shiftl (load16 bo data (off + 2)) 16)
  | BigEndian =>
      Z.lor (Z.shiftl (load16 bo data off) 16) (load16 bo data (off + 2))
  end.

(** [(void * )(hdr + 1) > data_end] for a header of [size] bytes at offset
    [off]. *)
Definition out_of_bounds (data : list byte) (off size : Z) : bool :=
  Z.of_nat (length data) <? off + size.

(** Layout of the kernel headers the programs cast packet memory to
    ([linux/if_ether.h], [linux/ip.h], [linux/tcp.h], [linux/udp.h]). *)
Definition ETH_P_IP : Z := 0x0800.
Definition IPPROTO_TCP : Z := 6.
Definition IPPROTO_UDP : Z := 17.

Definition sizeof_ethhdr : Z := 14.
Definition sizeof_iphdr : Z := 20.
Definition sizeof_tcphdr : Z := 20.
Definition sizeof_udphdr : Z := 8.

(** [eth->h_proto], with [eth] at offset 0. *)
Definition eth_h_proto (bo : byte_order) (data : list byte) : Z :=
  load16 bo data 12.

(** Fields of [struct iphdr] at offset [ip]. *)
Definition ip_ihl (data : list byte) (ip : Z) : Z :=
  Z.land (load8 data ip) 0xF.
Definition ip_protocol (data : list byte) (ip : Z) : Z := load8 data (ip + 9).
Definition ip_saddr (bo : byte_order) (data : list byte) (ip : Z) : Z :=
  load32 bo data (ip + 12).
Definition ip_daddr (bo : byte_order) (data : list byte) (ip : Z) : Z :=
  load32 bo data (ip + 16).

(** [source] and [dest] are the first two fields of both [struct tcphdr]
    and [struct udphdr]. *)
Definition l4_source (bo : byte_order) (data : list byte) (l4 : Z) : Z :=
  load16 bo data l4.
Definition l4_dest (bo : byte_order) (data : list byte) (l4 : Z) : Z :=
  load16 bo data (l4 + 2).

(** ** BPF maps *)

(** [bpf_map_lookup_elem] on a [BPF_MAP_TYPE_ARRAY]: a slot for every index
    below [max_entries], nothing beyond. *)
Definition bpf_array_lookup {V : Type} (max_entries : Z) (arr : list V)
    (key : Z) : option V :=
  if (0 <=? key) && (key <? max_entries) then arr !! Z.to_nat key else None.

(** [bpf_map_update_elem (.., BPF_ANY)] on a [BPF_MAP_TYPE_HASH]: an existing
    key is overwritten; a new key is inserted unless the map already holds
    [max_entries] elements, in which case the call fails with [-E2BIG] and
    the map is left as it was. *)
Definition E2BIG : Z := 7.

Definition bpf_hash_update `{Countable K} {V : Type} (max_entries : Z)
    (m : gmap K V) (key : K) (value : V) : gmap K V * Z :=
  match m !! key with
  | Some _ => (<[key := value]> m, 0)
  | None =>
      if Z.of_nat (size m) <? max_entries
      then (<[key := value]> m, 0)
      else (m, - E2BIG)
  end.

(** [bpf_ringbuf_reserve]: a record of [size] payload bytes takes an 8-byte
    header and the payload rounded up to 8 bytes; the reservation fails when
    the records not yet consumed leave no room for it. *)
Definition BPF_RINGBUF_HDR_SZ : Z := 8.

Definition ringbuf_record_size (size : Z) : Z :=
  BPF_RINGBUF_HDR_SZ + (size + 7) / 8 * 8.

Definition bpf_ringbuf_reserve {A : Type} (max_entries size : Z)
    (pending : list A) : bool :=
  (Z.of_nat (length pending) + 1) * ringbuf_record_size size <=? max_entries.

(** [bpf_ringbuf_submit]: the record becomes visible to the consumer after
    the ones submitted before it. *)
Definition bpf_ringbuf_submit {A : Type} (pending : list A) (rec : A) : list A :=
  pending ++ [rec].

(** ** egress_monitor.c *)

Module egress_monitor.

Definition MAX_ENTRIES : Z := 32768.
Definition MAX_CIDR_ENTRIES : Z := 256.

Definition TC_ACT_OK : Z := 0.

Record egress_event : Type := {
  src_ip : Z;
  dst_ip : Z;
  src_port : Z;
  dst_port : Z;
  protocol : Z;
  bytes : Z;
  timestamp_ns : Z;
  pid : Z
}.

Definition sizeof_egress_event : Z := 40.

Record cidr_range : Type := {
  network : Z;
  mask : Z
}.

(** The four maps of the object. *)
Record maps : Type := {
  cluster_cidrs : list cidr_range;
  cidr_count : list Z;
  egress_events : list egress_event;
  egress_bytes : gmap Z Z
}.

Definition egress_events_size : Z := 512 * 1024.

(** The loop of [is_internal_ip], from index [i] with [fuel = 16 - i]
    iterations left.  The result is the return value together with the keys
    passed to [bpf_map_lookup_elem (&cluster_cidrs, ..)], in call order. *)
Fixpoint cidr_loop (cidrs : list cidr_range) (num_cidrs ip : Z)
    (i : Z) (fuel : nat) : bool * list Z :=
  match fuel with
  | O => (false, [])
  | S fuel' =>
      if i >=? num_cidrs then (false, [])
      else
        let idx := i in
        match bpf_array_lookup MAX_CIDR_ENTRIES cidrs idx with
        | None =>
            let r := cidr_loop cidrs num_cidrs ip (i + 1) fuel' in
            (fst r, idx :: snd r)
        | Some cidr =>
            if Z.land ip (mask cidr) =? Z.land (network cidr) (mask cidr)
            then (true, [idx])
            else
              let r := cidr_loop cidrs num_cidrs ip (i + 1) fuel' in
              (fst r, idx :: snd r)
        end
  end.

Definition is_internal_ip_run (m : maps) (ip : Z) : bool * list Z :=
  let key := 0 in
  match bpf_array_lookup 1 (cidr_count m) key with
  | None => (false, [])
  | Some count =>
      let num_cidrs := count in
      let num_cidrs :=
        if num_cidrs >? MAX_CIDR_ENTRIES then MAX_CIDR_ENTRIES else num_cidrs in
      cidr_loop (cluster_cidrs m) num_cidrs ip 0 16
  end.

(** Check if IP is internal to cluster. *)
Definition is_internal_ip (m : maps) (ip : Z) : bool :=
  fst (is_internal_ip_run m ip).

(** Keys of [cluster_cidrs] that one call of [is_internal_ip] looks up. *)
Definition is_internal_ip_lookups (m : maps) (ip : Z) : list Z :=
  snd (is_internal_ip_run m ip).

(** Check for common private IP ranges. *)
Definition is_private_ip (bo : byte_order) (ip : Z) : bool :=
  let ip_host := bpf_ntohl bo ip in
  if Z.land ip_host 0xFF000000 =? 0x0A000000 then true
  else if Z.land ip_host 0xFFF00000 =? 0xAC100000 then true
  else if Z.land ip_host 0xFFFF0000 =? 0xC0A80000 then true
  else if Z.land ip_host 0xFF000000 =? 0x7F000000 then true
  else false.

(** The test of [monitor_egress] that decides the destination is not
    egress: [is_private_ip (ip->daddr) || is_internal_ip (ip->daddr)]. *)
Definition dst_is_internal (bo : byte_order) (m : maps) (daddr : Z) : bool :=
  is_private_ip bo daddr || is_internal_ip m daddr.

(** Lines 160-185 of [monitor_egress]: the destination is external and the
    ports are parsed; [ip] is the offset of the IP header and [now] the value
    of [bpf_ktime_get_ns ()]. *)
Definition monitor_egress_record (bo : byte_order) (m : maps) (now : Z)
    (skb : sk_buff) (ip src_port dst_port : Z) : maps * Z :=
  let data := skb_data skb in
  let daddr := ip_daddr bo data ip in
  let egress_bytes' :=
    match egress_bytes m !! daddr with
    | Some _ => alter (fun total => add64 total (skb_len skb)) daddr (egress_bytes m)
    | None =>
        let initial := skb_len skb in
        fst (bpf_hash_update MAX_ENTRIES (egress_bytes m) daddr initial)
    end in
  let m := {| cluster_cidrs := cluster_cidrs m; cidr_count := cidr_count m;
              egress_events := egress_events m;
              egress_bytes := egress_bytes' |} in
  if negb (bpf_ringbuf_reserve egress_events_size sizeof_egress_event
             (egress_events m))
  then (m, TC_ACT_OK) else
  let event := {| src_ip := ip_saddr bo data ip;
                  dst_ip := ip_daddr bo data ip;
                  src_port := src_port;
                  dst_port := dst_port;
                  protocol := ip_protocol data ip;
                  bytes := skb_len skb;
                  timestamp_ns := now;
                  pid := 0 |} in
  ({| cluster_cidrs := cluster_cidrs m; cidr_count := cidr_count m;
      egress_events := bpf_ringbuf_submit (egress_events m) event;
      egress_bytes := egress_bytes m |}, TC_ACT_OK).

(** The [tc] hook. *)
Definition monitor_egress (bo : byte_order) (m : maps) (now : Z)
    (skb : sk_buff) : maps * Z :=
  let data := skb_data skb in
  let eth := 0 in
  if out_of_bounds data eth sizeof_ethhdr then (m, TC_ACT_OK) else
  if negb (eth_h_proto bo data =? bpf_htons bo ETH_P_IP) then (m, TC_ACT_OK) else
  let ip := eth + sizeof_ethhdr in
  if out_of_bounds data ip sizeof_iphdr then (m, TC_ACT_OK) else
  if negb (ip_protocol data ip =? IPPROTO_TCP)
     && negb (ip_protocol data ip =? IPPROTO_UDP) then (m, TC_ACT_OK) else
  if dst_is_internal bo m (ip_daddr bo data ip) then (m, TC_ACT_OK) else
  if ip_protocol data ip =? IPPROTO_TCP then
    let tcp := ip + ip_ihl data ip * 4 in
    if out_of_bounds data tcp sizeof_tcphdr then (m, TC_ACT_OK) else
    let src_port := bpf_ntohs bo (l4_source bo data tcp) in
    let dst_port := bpf_ntohs bo (l4_dest bo data tcp) in
    monitor_egress_record bo m now skb ip src_port dst_port
  else
    let udp := ip + ip_ihl data ip * 4 in
    if out_of_bounds data udp sizeof_udphdr then (m, TC_ACT_OK) else
    let src_port := bpf_ntohs bo (l4_source bo data udp) in
    let dst_port := bpf_ntohs bo (l4_dest bo data udp) in
    monitor_egress_record bo m now skb ip src_port dst_port.

End egress_monitor.

(** ** flow_tracker.c *)

Module flow_tracker.

Definition MAX_ENTRIES : Z := 65536.
Definition TASK_COMM_LEN : Z := 16.

(** Flow key for identifying unique connections. *)
Record flow_key : Type := {
  src_ip : Z;
  dst_ip : Z;
  src_port : Z;
  dst_port : Z;
  protocol : Z;
  pad : list Z
}.

#[global] Instance flow_key_eq_dec : EqDecision flow_key.
Proof. solve_decision. Defined.

#[global] Program Instance flow_key_countable : Countable flow_key :=
  inj_countable'
    (fun k => (src_ip k, dst_ip k, src_port k, dst_port k, protocol k, pad k))
    (fun t => match t with
              | (a, b, c, d, e, f) =>
                  {| src_ip := a; dst_ip := b; src_port := c; dst_port := d;
                     protocol := e; pad := f |}
              end) _.
Next Obligation. by intros []. Qed.

Record flow_metrics : Type := {
  bytes_sent : Z;
  bytes_received : Z;
  packets_sent : Z;
  packets_received : Z;
  start_time_ns : Z;
  last_seen_ns : Z;
  pid : Z;
  uid : Z;
  comm : list byte
}.

(** Event sent to userspace. *)
Record flow_event : Type := {
  key : flow_key;
  metrics : flow_metrics;
  event_type : Z;
  direction : Z
}.

Definition sizeof_flow_event : Z := 96.

(** The three maps of the object. *)
Record maps : Type := {
  flow_map : gmap flow_key flow_metrics;
  events : list flow_event;
  config : list Z
}.

Definition events_size : Z := 256 * 1024.

Definition set_flow_map (m : maps) (fm : gmap flow_key flow_metrics) : maps :=
  {| flow_map := fm; events := events m; config := config m |}.

Definition set_events (m : maps) (evs : list flow_event) : maps :=
  {| flow_map := flow_map m; events := evs; config := config m |}.

(** What the helpers [bpf_ktime_get_ns], [bpf_get_current_pid_tgid],
    [bpf_get_current_uid_gid] and [bpf_get_current_comm] return during one
    run of a hook. *)
Record kernel : Type := {
  ktime_get_ns : Z;
  current_pid_tgid : Z;
  current_uid_gid : Z;
  current_comm : list byte
}.

(** Helper to create flow key from packet. *)
Definition create_flow_key (src_ip dst_ip src_port dst_port protocol : Z)
    : flow_key :=
  {| src_ip := src_ip; dst_ip := dst_ip;
     src_port := src_port; dst_port := dst_port;
     protocol := protocol; pad := [0; 0; 0] |}.

(** Writes through the [metrics] pointer that [bpf_map_lookup_elem] returned
    for a key: they act on the value the map holds for that key. *)
Definition add_bytes_sent (n : Z) (x : flow_metrics) : flow_metrics :=
  {| bytes_sent := add64 (bytes_sent x) n; bytes_received := bytes_received x;
     packets_sent := packets_sent x; packets_received := packets_received x;
     start_time_ns := start_time_ns x; last_seen_ns := last_seen_ns x;
     pid := pid x; uid := uid x; comm := comm x |}.

Definition add_packets_sent (n : Z) (x : flow_metrics) : flow_metrics :=
  {| bytes_sent := bytes_sent x; bytes_received := bytes_received x;
     packets_sent := add64 (packets_sent x) n;
     packets_received := packets_received x;
     start_time_ns := start_time_ns x; last_seen_ns := last_seen_ns x;
     pid := pid x; uid := uid x; comm := comm x |}.

Definition add_bytes_received (n : Z) (x : flow_metrics) : flow_metrics :=
  {| bytes_sent := bytes_sent x; bytes_received := add64 (bytes_received x) n;
     packets_sent := packets_sent x; packets_received := packets_received x;
     start_time_ns := start_time_ns x; last_seen_ns := last_seen_ns x;
     pid := pid x; uid := uid x; comm := comm x |}.

Definition add_packets_received (n : Z) (x : flow_metrics) : flow_metrics :=
  {| bytes_sent := bytes_sent x; bytes_received := bytes_received x;
     packets_sent := packets_sent x;
     packets_received := add64 (packets_received x) n;
     start_time_ns := start_time_ns x; last_seen_ns := last_seen_ns x;
     pid := pid x; uid := uid x; comm := comm x |}.

Definition set_last_seen_ns (now : Z) (x : flow_metrics) : flow_metrics :=
  {| bytes_sent := bytes_sent x; bytes_received := bytes_received x;
     packets_sent := packets_sent x; packets_received := packets_received x;
     start_time_ns := start_time_ns x; last_seen_ns := now;
     pid := pid x; uid := uid x; comm := comm x |}.

(** The addresses, ports and protocol a hook has read from the packet when
    it reaches [create_flow_key]. *)
Record l4_tuple : Type := {
  saddr : Z;
  daddr : Z;
  source : Z;
  dest : Z;
  ip_proto : Z
}.

(** Outcome of the header parsing both hooks start with: the hook has
    returned [ret], or it goes on with the tuple. *)
Inductive parsed : Type :=
  | Exit (ret : Z)
  | Headers (t : l4_tuple).

(** Lines 91-127 of [track_egress], which lines 162-194 of [track_ingress]
    repeat statement for statement; [source] and [dest] are the values of
    the locals [src_port] and [dst_port]. *)
Definition parse_l4 (bo : byte_order) (skb : sk_buff) : parsed :=
  let data := skb_data skb in
  let eth := 0 in
  if out_of_bounds data eth sizeof_ethhdr then Exit 1 else
  let eth_proto := bpf_ntohs bo (eth_h_proto bo data) in
  if negb (eth_proto =? ETH_P_IP) then Exit 1 else
  let ip := eth + sizeof_ethhdr in
  if out_of_bounds data ip sizeof_iphdr then Exit 1 else
  if negb (ip_protocol data ip =? IPPROTO_TCP)
     && negb (ip_protocol data ip =? IPPROTO_UDP) then Exit 1 else
  if ip_protocol data ip =? IPPROTO_TCP then
    let tcp := ip + ip_ihl data ip * 4 in
    if out_of_bounds data tcp sizeof_tcphdr then Exit 1 else
    Headers {| saddr := ip_saddr bo data ip; daddr := ip_daddr bo data ip;
               source := bpf_ntohs bo (l4_source bo data tcp);
               dest := bpf_ntohs bo (l4_dest bo data tcp);
               ip_proto := ip_protocol data ip |}
  else
    let udp := ip + ip_ihl data ip * 4 in
    if out_of_bounds data udp sizeof_udphdr then Exit 1 else
    Headers {| saddr := ip_saddr bo data ip; daddr := ip_daddr bo data ip;
               source := bpf_ntohs bo (l4_source bo data udp);
               dest := bpf_ntohs bo (l4_dest bo data udp);
               ip_proto := ip_protocol data ip |}.

(** The key [track_egress] builds (line 131). *)
Definition egress_flow_key (t : l4_tuple) : flow_key :=
  create_flow_key (saddr t) (daddr t) (source t) (dest t) (ip_proto t).

(** The key [track_ingress] builds (line 198): for ingress, reverse the flow
    key to match egress. *)
Definition ingress_flow_key (t : l4_tuple) : flow_key :=
  create_flow_key (daddr t) (saddr t) (dest t) (source t) (ip_proto t).

(** The zero-initialised [new_metrics] after lines 140-146. *)
Definition new_flow_metrics (k : kernel) (skb : sk_buff) (now : Z)
    : flow_metrics :=
  {| bytes_sent := skb_len skb;
     bytes_received := 0;
     packets_sent := 1;
     packets_received := 0;
     start_time_ns := now;
     last_seen_ns := now;
     pid := Z.shiftr (current_pid_tgid k) 32 mod 2 ^ 32;
     uid := Z.land (current_uid_gid k) 0xFFFFFFFF;
     comm := current_comm k |}.

(** Track egress packets (outbound from pod). *)
Definition track_egress (bo : byte_order) (m : maps) (k : kernel)
    (skb : sk_buff) : maps * Z :=
  match parse_l4 bo skb with
  | Exit ret => (m, ret)
  | Headers t =>
      let key := egress_flow_key t in
      let metrics := flow_map m !! key in
      let now := ktime_get_ns k in
      match metrics with
      | None =>
          let new_metrics := new_flow_metrics k skb now in
          (set_flow_map m
             (fst (bpf_hash_update MAX_ENTRIES (flow_map m) key new_metrics)),
           1)
      | Some _ =>
          let fm := alter (add_bytes_sent (skb_len skb)) key (flow_map m) in
          let fm := alter (add_packets_sent 1) key fm in
          let fm := alter (set_last_seen_ns now) key fm in
          (set_flow_map m fm, 1)
      end
  end.

(** Track ingress packets (inbound to pod). *)
Definition track_ingress (bo : byte_order) (m : maps) (k : kernel)
    (skb : sk_buff) : maps * Z :=
  match parse_l4 bo skb with
  | Exit ret => (m, ret)
  | Headers t =>
      let key := ingress_flow_key t in
      let metrics := flow_map m !! key in
      let now := ktime_get_ns k in
      match metrics with
      | Some _ =>
          let fm := alter (add_bytes_received (skb_len skb)) key (flow_map m) in
          let fm := alter (add_packets_received 1) key fm in
          let fm := alter (set_last_seen_ns now) key fm in
          (set_flow_map m fm, 1)
      | None => (m, 1)
      end
  end.

(** Periodic flush of flow data to userspace: the program the map iterator
    runs on one element, [ctx] holding [ctx->key] and [ctx->value]. *)
Definition flush_flows (m : maps)
    (ctx : option flow_key * option flow_metrics) : maps * Z :=
  match ctx with
  | (Some key, Some metrics) =>
      if negb (bpf_ringbuf_reserve events_size sizeof_flow_event (events m))
      then (m, 0) else
      let event := {| key := key; metrics := metrics;
                      event_type := 0; direction := 0 |} in
      (set_events m (bpf_ringbuf_submit (events m) event), 0)
  | _ => (m, 0)
  end.

(** *** The map iterator driving [flush_flows] *)

(** The [bpf_map_elem] iterator runs the program once per element of
    [flow_map], passing pointers to the live key and value, and once more
    with null pointers when the elements are exhausted; a non-zero return
    stops the walk.  The result is the maps afterwards and the return values
    of the calls made. *)
Fixpoint iterate_flush (m : maps) (keys : list flow_key) : maps * list Z :=
  match keys with
  | [] => let r := flush_flows m (None, None) in (fst r, [snd r])
  | key :: rest =>
      let r := flush_flows m (Some key, flow_map m !! key) in
      if snd r =? 0
      then let r' := iterate_flush (fst r) rest in (fst r', snd r :: snd r')
      else (fst r, [snd r])
  end.

Definition flush_walk (m : maps) : maps * list Z :=
  iterate_flush m (map_to_list (flow_map m)).*1.

(** *** Sequences of hook invocations *)

(** One run of one of the three programs of the object. *)
Inductive hook_call : Type :=
  | Egress (k : kernel) (skb : sk_buff)
  | Ingress (k : kernel) (skb : sk_buff)
  | Flush (ctx : option flow_key * option flow_metrics).

Definition run_hook (bo : byte_order) (m : maps) (c : hook_call) : maps :=
  match c with
  | Egress k skb => fst (track_egress bo m k skb)
  | Ingress k skb => fst (track_ingress bo m k skb)
  | Flush ctx => fst (flush_flows m ctx)
  end.

Definition run_hooks (bo : byte_order) (m : maps) (cs : list hook_call)
    : maps :=
  foldl (run_hook bo) m cs.

(** *** Concurrent runs of [track_egress]

    Lines 134-156 of [track_egress] as the sequence of map accesses one CPU
    performs; between two accesses another CPU may run.  Each access is
    atomic: the lookup, the [BPF_ANY] update, each [__sync_fetch_and_add],
    and the store to [last_seen_ns]. *)
Inductive pc : Type :=
  | AtLookup          (* line 134: bpf_map_lookup_elem *)
  | AtInsert          (* line 148: metrics was NULL *)
  | AtAddBytes        (* line 151 *)
  | AtAddPackets      (* line 152 *)
  | AtSetLastSeen     (* line 153 *)
  | Returned (ret : Z).

Record cpu : Type := {
  cpu_pc : pc;
  cpu_key : flow_key;
  cpu_kernel : kernel;
  cpu_skb : sk_buff
}.

Definition at_pc (c : cpu) (p : pc) : cpu :=
  {| cpu_pc := p; cpu_key := cpu_key c;
     cpu_kernel := cpu_kernel c; cpu_skb := cpu_skb c |}.

Definition cpu_step (fm : gmap flow_key flow_metrics) (c : cpu)
    : gmap flow_key flow_metrics * cpu :=
  let key := cpu_key c in
  let now := ktime_get_ns (cpu_kernel c) in
  match cpu_pc c with
  | AtLookup =>
      match fm !! key with
      | None => (fm, at_pc c AtInsert)
      | Some _ => (fm, at_pc c AtAddBytes)
      end
  | AtInsert =>
      let new_metrics := new_flow_metrics (cpu_kernel c) (cpu_skb c) now in
      (fst (bpf_hash_update MAX_ENTRIES fm key new_metrics),
       at_pc c (Returned 1))
  | AtAddBytes =>
      (alter (add_bytes_sent (skb_len (cpu_skb c))) key fm,
       at_pc c AtAddPackets)
  | AtAddPackets => (alter (add_packets_sent 1) key fm, at_pc c AtSetLastSeen)
  | AtSetLastSeen => (alter (set_last_seen_ns now) key fm, at_pc c (Returned 1))
  | Returned _ => (fm, c)
  end.

(** A schedule names, step by step, the CPU that performs its next map
    access. *)
Fixpoint run_schedule (sched : list nat) (fm : gmap flow_key flow_metrics)
    (cpus : list cpu) : gmap flow_key flow_metrics * list cpu :=
  match sched with
  | [] => (fm, cpus)
  | i :: sched' =>
      match cpus !! i with
      | None => run_schedule sched' fm cpus
      | Some c =>
          let r := cpu_step fm c in
          run_schedule sched' (fst r) (<[i := snd r]> cpus)
      end
  end.

Definition has_returned (c : cpu) : bool :=
  match cpu_pc c with Returned _ => true | _ => false end.

(** [n] CPUs that each enter [track_egress] with a packet of the flow [key]
    and have parsed it. *)
Definition first_sight (n : nat) (key : flow_key) (k : kernel)
    (skb : sk_buff) : list cpu :=
  replicate n {| cpu_pc := AtLookup; cpu_key := key;
                 cpu_kernel := k; cpu_skb := skb |}.

End flow_tracker.

(** ** Specification vocabulary *)

(** The IPv4 block [base/prefix], as a range of host-order addresses. *)
Definition in_block (base prefix a : Z) : Prop :=
  base <= a < base + 2 ^ (32 - prefix).

(** 10.0.0.0/8, 172.16.0.0/12, 192.168.0.0/16 and 127.0.0.0/8. *)
Definition private_range (a : Z) : Prop :=
  in_block 0x0A000000 8 a \/ in_block 0xAC100000 12 a \/
  in_block 0xC0A80000 16 a \/ in_block 0x7F000000 8 a.

(** [(address & mask) == (network & mask)]. *)
Definition matches_cidr (ip : Z) (c : egress_monitor.cidr_range) : Prop :=
  Z.land ip (egress_monitor.mask c)
  = Z.land (egress_monitor.network c) (egress_monitor.mask c).

(** Entry [i] of the configured list [cidrs] exists and matches [ip]. *)
Definition entry_matches (cidrs : list egress_monitor.cidr_range) (ip i : Z)
    : Prop :=
  0 <= i /\
  exists c, cidrs !! Z.to_nat i = Some c /\ matches_cidr ip c.

(** The configured number of CIDRs: slot 0 of [cidr_count]. *)
Definition configured_count (m : egress_monitor.maps) : Z :=
  default 0 (egress_monitor.cidr_count m !! 0%nat).

(** The number of entries [is_internal_ip] can reach: the configured count,
    cut at the 16 iterations of its loop. *)
Definition examined_count (m : egress_monitor.maps) : Z :=
  Z.max 0 (Z.min (configured_count m) 16).

(** The packet lengths a hook invocation adds to the sent counters, and to
    the received counters, of the entry of [key]: the invocation is an
    outbound, respectively inbound, one whose packet parses to that key. *)
Definition outbound_len (bo : byte_order) (key : flow_tracker.flow_key)
    (c : flow_tracker.hook_call) : option Z :=
  match c with
  | flow_tracker.Egress _ skb =>
      match flow_tracker.parse_l4 bo skb with
      | flow_tracker.Headers t =>
          if decide (flow_tracker.egress_flow_key t = key)
          then Some (skb_len skb) else None
      | flow_tracker.Exit _ => None
      end
  | _ => None
  end.

Definition inbound_len (bo : byte_order) (key : flow_tracker.flow_key)
    (c : flow_tracker.hook_call) : option Z :=
  match c with
  | flow_tracker.Ingress _ skb =>
      match flow_tracker.parse_l4 bo skb with
      | flow_tracker.Headers t =>
          if decide (flow_tracker.ingress_flow_key t = key)
          then Some (skb_len skb) else None
      | flow_tracker.Exit _ => None
      end
  | _ => None
  end.

Definition sum_Z (l : list Z) : Z := foldr Z.add 0 l.

(** Total length and number of the packets of [cs] that [f] selects. *)
Definition bytes_applied (f : flow_tracker.hook_call -> option Z)
    (cs : list flow_tracker.hook_call) : Z :=
  sum_Z (omap f cs).

Definition packets_applied (f : flow_tracker.hook_call -> option Z)
    (cs : list flow_tracker.hook_call) : Z :=
  Z.of_nat (length (omap f cs)).

(** The three writes of the outbound path, and of the inbound path, through
    the pointer to an existing entry [old]. *)
Definition sent_update (len now : Z) (old : flow_tracker.flow_metrics)
    : flow_tracker.flow_metrics :=
  flow_tracker.set_last_seen_ns now
    (flow_tracker.add_packets_sent 1 (flow_tracker.add_bytes_sent len old)).

Definition received_update (len now : Z) (old : flow_tracker.flow_metrics)
    : flow_tracker.flow_metrics :=
  flow_tracker.set_last_seen_ns now
    (flow_tracker.add_packets_received 1
       (flow_tracker.add_bytes_received len old)).

(** An invocation of the inbound hook; one whose packet, if it parses,
    carries the flow [key]. *)
Definition is_ingress (c : flow_tracker.hook_call) : Prop :=
  match c with
  | flow_tracker.Ingress _ _ => True
  | _ => False
  end.

Definition ingress_for (bo : byte_order) (key : flow_tracker.flow_key)
    (c : flow_tracker.hook_call) : Prop :=
  match c with
  | flow_tracker.Ingress _ skb =>
      forall t, flow_tracker.parse_l4 bo skb = flow_tracker.Headers t ->
                flow_tracker.ingress_flow_key t = key
  | _ => False
  end.

(** The four counters are [__u64] values. *)
Definition counters_in_range (x : flow_tracker.flow_metrics) : Prop :=
  0 <= flow_tracker.bytes_sent x < 2 ^ 64 /\
  0 <= flow_tracker.packets_sent x < 2 ^ 64 /\
  0 <= flow_tracker.bytes_received x < 2 ^ 64 /\
  0 <= flow_tracker.packets_received x < 2 ^ 64.

(** The [FlowSnapshot] record [flush_flows] builds for one element. *)
Definition snapshot (kv : flow_tracker.flow_key * flow_tracker.flow_metrics)
    : flow_tracker.flow_event :=
  {| flow_tracker.key := fst kv; flow_tracker.metrics := snd kv;
     flow_tracker.event_type := 0; flow_tracker.direction := 0 |}.

(** Number of records of [size] payload bytes a ring buffer of
    [max_entries] bytes can still take. *)
Definition ringbuf_free {A : Type} (max_entries size : Z) (pending : list A)
    : nat :=
  Z.to_nat (max_entries / ringbuf_record_size size - Z.of_nat (length pending)).

(** ** Example inputs *)

(** 203.0.113.42, 203.0.113.0, 255.255.255.0, 10.0.0.0 and 255.0.0.0 as a
    little-endian target loads them from a packet (network byte order). *)
Definition ip_203_0_113_42 : Z := 0x2A7100CB.

Definition cidr_203_0_113_0_24 : egress_monitor.cidr_range :=
  {| egress_monitor.network := 0x007100CB; egress_monitor.mask := 0x00FFFFFF |}.

Definition cidr_10_0_0_0_8 : egress_monitor.cidr_range :=
  {| egress_monitor.network := 0x0000000A; egress_monitor.mask := 0x000000FF |}.

(** 203.0.113.0/24 as the only configured range. *)
Definition one_cidr : egress_monitor.maps :=
  {| egress_monitor.cluster_cidrs := [cidr_203_0_113_0_24];
     egress_monitor.cidr_count := [1];
     egress_monitor.egress_events := [];
     egress_monitor.egress_bytes := ∅ |}.

(** Seventeen configured ranges; only the last one contains 203.0.113.42. *)
Definition seventeen_cidrs : egress_monitor.maps :=
  {| egress_monitor.cluster_cidrs :=
       replicate 16 cidr_10_0_0_0_8 ++ [cidr_203_0_113_0_24];
     egress_monitor.cidr_count := [17];
     egress_monitor.egress_events := [];
     egress_monitor.egress_bytes := ∅ |}.

(** *** Packets and flow tables *)

Definition octet (z : Z) : byte :=
  default x00 (Byte.of_N (Z.to_N (z mod 256))).

Definition be16 (z : Z) : list byte := [octet (z / 2 ^ 8); octet z].

Definition be32 (z : Z) : list byte :=
  [octet (z / 2 ^ 24); octet (z / 2 ^ 16); octet (z / 2 ^ 8); octet z].

(** An Ethernet frame carrying an IPv4 header without options and 20 bytes
    of transport header; addresses and ports are given in host order. *)
Definition ipv4_frame (proto saddr daddr sport dport : Z) : list byte :=
  replicate 12 x00 ++ be16 ETH_P_IP
  ++ [octet 0x45] ++ replicate 8 x00 ++ [octet proto] ++ replicate 2 x00
  ++ be32 saddr ++ be32 daddr
  ++ be16 sport ++ be16 dport ++ replicate 16 x00.

(** 10.0.0.5:40000 -> 93.184.216.34:443, TCP, 100 bytes. *)
Definition outbound_external : sk_buff :=
  {| skb_data := ipv4_frame IPPROTO_TCP 0x0A000005 0x5DB8D822 40000 443;
     skb_len := 100 |}.

(** Its reply, 93.184.216.34:443 -> 10.0.0.5:40000, 1500 bytes. *)
Definition inbound_reply : sk_buff :=
  {| skb_data := ipv4_frame IPPROTO_TCP 0x5DB8D822 0x0A000005 443 40000;
     skb_len := 1500 |}.

(** 10.0.0.5:40000 -> 10.1.1.1:53, UDP, 60 bytes. *)
Definition outbound_internal : sk_buff :=
  {| skb_data := ipv4_frame IPPROTO_UDP 0x0A000005 0x0A010101 40000 53;
     skb_len := 60 |}.

Definition some_task : flow_tracker.kernel :=
  {| flow_tracker.ktime_get_ns := 1000;
     flow_tracker.current_pid_tgid := 0x0000002A0000002B;
     flow_tracker.current_uid_gid := 0x000003E8000001F4;
     flow_tracker.current_comm := [] |}.

(** The key of [outbound_external] on a little-endian target. *)
Definition example_key : flow_tracker.flow_key :=
  flow_tracker.create_flow_key 0x0500000A 0x22D8B85D 40000 443 IPPROTO_TCP.

(** What [parse_l4] makes of [outbound_external] and of [inbound_reply] on
    a little-endian target. *)
Definition example_tuple : flow_tracker.l4_tuple :=
  {| flow_tracker.saddr := 0x0500000A; flow_tracker.daddr := 0x22D8B85D;
     flow_tracker.source := 40000; flow_tracker.dest := 443;
     flow_tracker.ip_proto := IPPROTO_TCP |}.

Definition reply_tuple : flow_tracker.l4_tuple :=
  {| flow_tracker.saddr := 0x22D8B85D; flow_tracker.daddr := 0x0500000A;
     flow_tracker.source := 443; flow_tracker.dest := 40000;
     flow_tracker.ip_proto := IPPROTO_TCP |}.

(** What [parse_l4] makes of [outbound_internal] there. *)
Definition internal_tuple : flow_tracker.l4_tuple :=
  {| flow_tracker.saddr := 0x0500000A; flow_tracker.daddr := 0x0101010A;
     flow_tracker.source := 40000; flow_tracker.dest := 53;
     flow_tracker.ip_proto := IPPROTO_UDP |}.

(** A flow table holding [MAX_ENTRIES] other flows. *)
Definition idle_metrics : flow_tracker.flow_metrics :=
  {| flow_tracker.bytes_sent := 0; flow_tracker.bytes_received := 0;
     flow_tracker.packets_sent := 0; flow_tracker.packets_received := 0;
     flow_tracker.start_time_ns := 0; flow_tracker.last_seen_ns := 0;
     flow_tracker.pid := 0; flow_tracker.uid := 0; flow_tracker.comm := [] |}.

Definition filler_key (i : nat) : flow_tracker.flow_key :=
  flow_tracker.create_flow_key (Z.of_nat i) 0 0 0 IPPROTO_TCP.

Definition full_flow_map
    : gmap flow_tracker.flow_key flow_tracker.flow_metrics :=
  list_to_map ((fun i => (filler_key i, idle_metrics))
                 <$> seq 0 (Z.to_nat flow_tracker.MAX_ENTRIES)).

Definition full_table : flow_tracker.maps :=
  {| flow_tracker.flow_map := full_flow_map; flow_tracker.events := [];
     flow_tracker.config := [0] |}.

(** The flow of [outbound_external] after 184467440737095516 packets of
    100 bytes: [bytes_sent] is 2^64 - 16. *)
Definition packets_to_saturation : Z := 184467440737095516.

Definition saturated_metrics : flow_tracker.flow_metrics :=
  {| flow_tracker.bytes_sent := 2 ^ 64 - 16;
     flow_tracker.bytes_received := 0;
     flow_tracker.packets_sent := packets_to_saturation;
     flow_tracker.packets_received := 0;
     flow_tracker.start_time_ns := 1000; flow_tracker.last_seen_ns := 1000;
     flow_tracker.pid := 42; flow_tracker.uid := 500;
     flow_tracker.comm := [] |}.

Definition saturated_table : flow_tracker.maps :=
  {| flow_tracker.flow_map := {[ example_key := saturated_metrics ]};
     flow_tracker.events := []; flow_tracker.config := [0] |}.

Definition no_flows : flow_tracker.maps :=
  {| flow_tracker.flow_map := ∅; flow_tracker.events := [];
     flow_tracker.config := [0] |}.

Definition no_egress : egress_monitor.maps :=
  {| egress_monitor.cluster_cidrs := []; egress_monitor.cidr_count := [0];
     egress_monitor.egress_events := []; egress_monitor.egress_bytes := ∅ |}.

(** ** Wire format

    What the packet bytes say, read as the network sends them (most
    significant byte first) and without reference to the byte order of the
    target. *)

Definition wire16 (data : list byte) (off : Z) : Z :=
  load8 data off * 2 ^ 8 + load8 data (off + 1).

Definition wire32 (data : list byte) (off : Z) : Z :=
  wire16 data off * 2 ^ 16 + wire16 data (off + 2).

(** Offset of the transport header: the Ethernet header and four bytes per
    unit of the header-length nibble of the first IP byte. *)
Definition l4_offset (data : list byte) : Z :=
  14 + load8 data 14 mod 16 * 4.

(** An Ethernet frame of type 0x0800 whose 20 fixed IP header bytes lie
    within the data, whose protocol byte is 6 or 17, and whose TCP (20
    bytes) or UDP (8 bytes) header at [l4_offset] lies within the data. *)
Definition is_ipv4_l4 (data : list byte) : bool :=
  (34 <=? Z.of_nat (length data))
  && (wire16 data 12 =? 0x0800)
  && (((load8 data 23 =? 6)
       && (l4_offset data + 20 <=? Z.of_nat (length data)))
      || ((load8 data 23 =? 17)
          && (l4_offset data + 8 <=? Z.of_nat (length data)))).

(** The record [monitor_egress] writes for a frame it reports. *)
Definition egress_event_of (bo : byte_order) (now : Z) (skb : sk_buff)
    : egress_monitor.egress_event :=
  {| egress_monitor.src_ip := ip_saddr bo (skb_data skb) 14;
     egress_monitor.dst_ip := ip_daddr bo (skb_data skb) 14;
     egress_monitor.src_port := wire16 (skb_data skb) (l4_offset (skb_data skb));
     egress_monitor.dst_port :=
       wire16 (skb_data skb) (l4_offset (skb_data skb) + 2);
     egress_monitor.protocol := load8 (skb_data skb) 23;
     egress_monitor.bytes := skb_len skb;
     egress_monitor.timestamp_ns := now;
     egress_monitor.pid := 0 |}.

(** A frame [monitor_egress] reports: IPv4 TCP or UDP with a destination
    that is neither private nor configured. *)
Definition is_egress (bo : byte_order) (m : egress_monitor.maps)
    (skb : sk_buff) : bool :=
  is_ipv4_l4 (skb_data skb)
  && negb (egress_monitor.dst_is_internal bo m (ip_daddr bo (skb_data skb) 14)).

(** The length [monitor_egress] adds to the total of [dst] for a frame. *)
Definition egress_len (bo : byte_order) (m : egress_monitor.maps) (dst : Z)
    (c : Z * sk_buff) : option Z :=
  if is_egress bo m (snd c) && (ip_daddr bo (skb_data (snd c)) 14 =? dst)
  then Some (skb_len (snd c)) else None.

(** The [tc] hook run on one frame after another, each with the clock value
    of its run. *)
Definition run_monitor (bo : byte_order) (m : egress_monitor.maps)
    (cs : list (Z * sk_buff)) : egress_monitor.maps :=
  foldl (fun m c => fst (egress_monitor.monitor_egress bo m (fst c) (snd c)))
    m cs.

(** Start time and process identity of a flow entry. *)
Definition same_identity (a b : flow_tracker.flow_metrics) : Prop :=
  flow_tracker.start_time_ns a = flow_tracker.start_time_ns b /\
  flow_tracker.pid a = flow_tracker.pid b /\
  flow_tracker.uid a = flow_tracker.uid b /\
  flow_tracker.comm a = flow_tracker.comm b.

(** What a CPU inside [track_egress] has still to add to the counters of an
    existing entry. *)
Definition pending_bytes (c : flow_tracker.cpu) : Z :=
  match flow_tracker.cpu_pc c with
  | flow_tracker.AtLookup | flow_tracker.AtAddBytes =>
      skb_len (flow_tracker.cpu_skb c)
  | _ => 0
  end.

Definition pending_packets (c : flow_tracker.cpu) : Z :=
  match flow_tracker.cpu_pc c with
  | flow_tracker.AtLookup | flow_tracker.AtAddBytes
  | flow_tracker.AtAddPackets => 1
  | _ => 0
  end.

(** CPUs inside [track_egress] for the flow [key], whose entry exists: the
    entry, together with what the CPUs have still to add, accounts for the
    totals [total_bytes] and [total_packets], and has the received counters
    and the identity of [old]. *)
Definition updating (key : flow_tracker.flow_key)
    (old : flow_tracker.flow_metrics) (total_bytes total_packets : Z)
    (fm : gmap flow_tracker.flow_key flow_tracker.flow_metrics)
    (cpus : list flow_tracker.cpu) : Prop :=
  Forall (fun c => flow_tracker.cpu_key c = key /\
                   flow_tracker.cpu_pc c <> flow_tracker.AtInsert) cpus /\
  exists cur,
    fm !! key = Some cur /\
    0 <= flow_tracker.bytes_sent cur < 2 ^ 64 /\
    0 <= flow_tracker.packets_sent cur < 2 ^ 64 /\
    (flow_tracker.bytes_sent cur + sum_Z (pending_bytes <$> cpus)) mod 2 ^ 64
    = total_bytes /\
    (flow_tracker.packets_sent cur + sum_Z (pending_packets <$> cpus))
      mod 2 ^ 64
    = total_packets /\
    flow_tracker.bytes_received cur = flow_tracker.bytes_received old /\
    flow_tracker.packets_received cur = flow_tracker.packets_received old /\
    same_identity cur old.

(** An existing entry with two CPUs about to update it. *)
Definition one_flow : flow_tracker.maps :=
  {| flow_tracker.flow_map :=
       {[ example_key := flow_tracker.new_flow_metrics some_task
                           outbound_external 1000 ]};
     flow_tracker.events := []; flow_tracker.config := [0] |}.

(** A first slot that was never filled in, counted as configured. *)
Definition blank_cidr : egress_monitor.maps :=
  {| egress_monitor.cluster_cidrs :=
       [ {| egress_monitor.network := 0; egress_monitor.mask := 0 |} ];
     egress_monitor.cidr_count := [1];
     egress_monitor.egress_events := [];
     egress_monitor.egress_bytes := ∅ |}.

(** ** The address classifier *)

Section classifier.
Import egress_monitor.

Lemma land_high_mask (h n k : Z) :
  0 <= n -> 0 <= k -> 0 <= h < 2 ^ (n + k) ->
  Z.land h (Z.shiftl (Z.ones k) n) = Z.shiftl (Z.shiftr h n) n.
Proof.
  intros Hn Hk [Hh0 Hh].
  apply Z.bits_inj'. intros i Hi.
  rewrite Z.land_spec, !Z.shiftl_spec by lia.
  destruct (Z.lt_ge_cases i n) as [Hlt | Hge].
  - rewrite !(Z.testbit_neg_r _ (i - n)) by lia. apply andb_false_r.
  - rewrite Z.shiftr_spec by lia.
    replace (i - n + n) with i by lia.
    destruct (Z.lt_ge_cases (i - n) k) as [Hlow | Hhigh].
    + rewrite Z.ones_spec_low by lia. apply andb_true_r.
    + rewrite Z.ones_spec_high by lia. rewrite andb_false_r.
      symmetry. destruct (Z.eq_dec h 0) as [-> | Hne].
      * apply Z.bits_0.
      * apply Z.bits_above_log2; [lia |].
        apply Z.log2_lt_pow2; [lia |].
        eapply Z.lt_le_trans; [exact Hh |].
        apply Z.pow_le_mono_r; lia.
Qed.

Lemma block_test (h n k base : Z) :
  0 <= n -> 0 <= k -> n + k = 32 -> 0 <= h < 2 ^ 32 ->
  base mod 2 ^ n = 0 ->
  Z.land h (Z.shiftl (Z.ones k) n) = base <-> in_block base k h.
Proof.
  intros Hn Hk Hnk Hh Hbase. unfold in_block.
  rewrite land_high_mask by (rewrite ?Hnk; lia).
  rewrite Z.shiftl_mul_pow2, Z.shiftr_div_pow2 by lia.
  replace (32 - k) with n by lia.
  assert (0 < 2 ^ n) by (apply Z.pow_pos_nonneg; lia).
  pose proof (Z.div_mod h (2 ^ n) ltac:(lia)) as Hdm.
  pose proof (Z.mod_pos_bound h (2 ^ n) ltac:(lia)) as Hmb.
  pose proof (Z.div_mod base (2 ^ n) ltac:(lia)) as Hdb.
  rewrite Hbase in Hdb.
  set (P := 2 ^ n) in *. set (q := h / P) in *. set (qb := base / P) in *.
  split.
  - intros Heq. lia.
  - intros [Hlo Hhi]. assert (q = qb) by nia. subst q. lia.
Qed.

Lemma bswap32_range (x : Z) : 0 <= bswap32 x < 2 ^ 32.
Proof.
  unfold bswap32.
  assert (Hb : forall y, 0 <= Z.land y 0xFF < 256).
  { intros y. change 0xFF with (Z.ones 8). rewrite Z.land_ones by lia.
    apply Z.mod_pos_bound. lia. }
  assert (Hor : forall a b, 0 <= a -> 0 <= b -> 0 <= Z.lor a b <= a + b).
  { intros a b Ha Hb'. split; [apply Z.lor_nonneg; lia |].
    pose proof (Z.add_lor_land a b).
    assert (0 <= Z.land a b) by (apply Z.land_nonneg; lia). lia. }
  rewrite !Z.shiftl_mul_pow2 by lia.
  pose proof (Hb x). pose proof (Hb (Z.shiftr x 8)).
  pose proof (Hb (Z.shiftr x 16)). pose proof (Hb (Z.shiftr x 24)).
  set (b0 := Z.land x 0xFF) in *.
  set (b1 := Z.land (Z.shiftr x 8) 0xFF) in *.
  set (b2 := Z.land (Z.shiftr x 16) 0xFF) in *.
  set (b3 := Z.land (Z.shiftr x 24) 0xFF) in *.
  pose proof (Hor (b2 * 2 ^ 8) b3 ltac:(lia) ltac:(lia)).
  pose proof (Hor (b1 * 2 ^ 16) (Z.lor (b2 * 2 ^ 8) b3) ltac:(lia) ltac:(lia)).
  pose proof (Hor (b0 * 2 ^ 24)
                (Z.lor (b1 * 2 ^ 16) (Z.lor (b2 * 2 ^ 8) b3))
                ltac:(lia) ltac:(lia)).
  lia.
Qed.

Lemma bpf_ntohl_range (bo : byte_order) (ip : Z) :
  0 <= ip < 2 ^ 32 -> 0 <= bpf_ntohl bo ip < 2 ^ 32.
Proof. destruct bo; simpl; [intros _; apply bswap32_range | done]. Qed.

Lemma is_private_ip_spec (bo : byte_order) (ip : Z) :
  0 <= ip < 2 ^ 32 ->
  is_private_ip bo ip = true <-> private_range (bpf_ntohl bo ip).
Proof.
  intros Hip. pose proof (bpf_ntohl_range bo ip Hip) as Hh.
  unfold is_private_ip, private_range.
  set (h := bpf_ntohl bo ip) in *.
  pose proof (block_test h 24 8 0x0A000000) as H10.
  pose proof (block_test h 20 12 0xAC100000) as H172.
  pose proof (block_test h 16 16 0xC0A80000) as H192.
  pose proof (block_test h 24 8 0x7F000000) as H127.
  change (Z.shiftl (Z.ones 8) 24) with 0xFF000000 in *.
  change (Z.shiftl (Z.ones 12) 20) with 0xFFF00000 in *.
  change (Z.shiftl (Z.ones 16) 16) with 0xFFFF0000 in *.
  specialize (H10 ltac:(lia) ltac:(lia) ltac:(lia) Hh ltac:(reflexivity)).
  specialize (H172 ltac:(lia) ltac:(lia) ltac:(lia) Hh ltac:(reflexivity)).
  specialize (H192 ltac:(lia) ltac:(lia) ltac:(lia) Hh ltac:(reflexivity)).
  specialize (H127 ltac:(lia) ltac:(lia) ltac:(lia) Hh ltac:(reflexivity)).
  repeat match goal with
         | |- context [?a =? ?b] => destruct (Z.eqb_spec a b)
         end; intuition congruence.
Qed.

Lemma cidr_loop_spec (cidrs : list cidr_range) (num_cidrs ip : Z) :
  forall (fuel : nat) (i : Z),
    0 <= i -> i + Z.of_nat fuel <= MAX_CIDR_ENTRIES ->
    let r := cidr_loop cidrs num_cidrs ip i fuel in
    let stop := Z.max i (Z.min num_cidrs (i + Z.of_nat fuel)) in
    if fst r
    then exists j, i <= j < stop /\ entry_matches cidrs ip j /\
                   (forall i', i <= i' < j -> ~ entry_matches cidrs ip i') /\
                   snd r = seqZ i (j - i + 1)
    else (forall j, i <= j < stop -> ~ entry_matches cidrs ip j) /\
         snd r = seqZ i (stop - i).
Proof.
  induction fuel as [| fuel IH]; intros i Hi Hfuel; cbn [cidr_loop].
  - cbn [fst snd]. split; [intros j Hj; lia |].
    replace (_ - i) with 0 by lia. reflexivity.
  - destruct (Z.geb_spec i num_cidrs) as [Hge | Hlt]; cbn zeta.
    { cbn [fst snd]. split; [intros j Hj; lia |].
      replace (_ - i) with 0 by lia. reflexivity. }
    assert (Hlk : bpf_array_lookup MAX_CIDR_ENTRIES cidrs i
                  = cidrs !! Z.to_nat i).
    { unfold bpf_array_lookup.
      destruct (Z.leb_spec 0 i); [| lia].
      destruct (Z.ltb_spec i MAX_CIDR_ENTRIES); [done | lia]. }
    rewrite Hlk.
    specialize (IH (i + 1) ltac:(lia) ltac:(lia)). cbn zeta in IH.
    replace (Z.max (i + 1) (Z.min num_cidrs (i + 1 + Z.of_nat fuel)))
      with (Z.max i (Z.min num_cidrs (i + Z.of_nat (S fuel)))) in IH by lia.
    set (stop := Z.max i (Z.min num_cidrs (i + Z.of_nat (S fuel)))) in *.
    assert (Hstop : i < stop) by lia.
    assert (Hrec :
      (forall c, cidrs !! Z.to_nat i = Some c -> ~ matches_cidr ip c) ->
      let r := cidr_loop cidrs num_cidrs ip (i + 1) fuel in
      if fst r
      then exists j, i <= j < stop /\ entry_matches cidrs ip j /\
                     (forall i', i <= i' < j -> ~ entry_matches cidrs ip i') /\
                     i :: snd r = seqZ i (j - i + 1)
      else (forall j, i <= j < stop -> ~ entry_matches cidrs ip j) /\
           i :: snd r = seqZ i (stop - i)).
    { intros Hno. cbn zeta.
      assert (Hi_no : ~ entry_matches cidrs ip i).
      { intros [_ (c & Hc & Hm)]. exact (Hno c Hc Hm). }
      destruct (fst (cidr_loop cidrs num_cidrs ip (i + 1) fuel)).
      - destruct IH as (j & Hj & Hmj & Hfirst & Htrace).
        exists j. split; [lia |]. split; [exact Hmj |]. split.
        + intros i' Hi'. destruct (Z.eq_dec i' i) as [-> | Hne]; [done |].
          apply Hfirst. lia.
        + rewrite Htrace, (seqZ_cons i) by lia. do 2 f_equal; lia.
      - destruct IH as [Hnone Htrace]. split.
        + intros j Hj. destruct (Z.eq_dec j i) as [-> | Hne]; [done |].
          apply Hnone. lia.
        + rewrite Htrace, (seqZ_cons i) by lia. do 2 f_equal; lia. }
    destruct (cidrs !! Z.to_nat i) as [c |] eqn:Hc.
    + destruct (Z.eqb_spec (Z.land ip (mask c))
                  (Z.land (network c) (mask c))) as [Hm | Hm].
      * cbn [fst snd]. exists i. split; [lia |]. split.
        { split; [lia |]. exists c. done. }
        split; [intros i' Hi'; lia |].
        replace (i - i + 1) with 1 by lia. reflexivity.
      * cbn [fst snd]. apply Hrec. intros c' [= <-]. exact Hm.
    + cbn [fst snd]. apply Hrec. intros c' [=].
Qed.

Lemma is_internal_ip_run_spec (m : maps) (ip : Z) :
  let r := is_internal_ip_run m ip in
  let n := examined_count m in
  if fst r
  then exists j, 0 <= j < n /\ entry_matches (cluster_cidrs m) ip j /\
                 (forall i, 0 <= i < j ->
                            ~ entry_matches (cluster_cidrs m) ip i) /\
                 snd r = seqZ 0 (j + 1)
  else (forall j, 0 <= j < n -> ~ entry_matches (cluster_cidrs m) ip j) /\
       snd r = seqZ 0 n.
Proof.
  unfold is_internal_ip_run, examined_count, configured_count.
  change (bpf_array_lookup 1 (cidr_count m) 0) with (cidr_count m !! 0%nat).
  destruct (cidr_count m !! 0%nat) as [count |];
    cbn [from_option id fst snd].
  - set (num := if count >? MAX_CIDR_ENTRIES then MAX_CIDR_ENTRIES else count).
    pose proof (cidr_loop_spec (cluster_cidrs m) num ip 16 0
                  ltac:(lia) ltac:(unfold MAX_CIDR_ENTRIES; lia)) as Hloop.
    cbn zeta in Hloop.
    assert (Hstop : Z.max 0 (Z.min num (0 + Z.of_nat 16))
                    = Z.max 0 (Z.min count 16)).
    { subst num. unfold MAX_CIDR_ENTRIES.
      destruct (Z.gtb_spec count 256); lia. }
    rewrite Hstop in Hloop.
    destruct (fst (cidr_loop (cluster_cidrs m) num ip 0 16)).
    + destruct Hloop as (j & Hj & Hm & Hfirst & Htrace).
      exists j. rewrite Htrace.
      split; [lia |]. split; [exact Hm |]. split; [exact Hfirst |].
      f_equal; lia.
    + destruct Hloop as [Hnone Htrace]. rewrite Htrace.
      split; [done | f_equal; lia].
  - split; [intros j Hj; lia | reflexivity].
Qed.

(** 10.1.2.3, 172.20.0.5, 192.168.1.1 and 127.0.0.1 are Internal and
    8.8.8.8 is External without configured ranges; 203.0.113.42 becomes
    Internal once 203.0.113.0/24 is configured. *)
Example classifier_on_known_addresses :
  dst_is_internal LittleEndian no_egress 0x0302010A = true /\
  dst_is_internal LittleEndian no_egress 0x050014AC = true /\
  dst_is_internal LittleEndian no_egress 0x0101A8C0 = true /\
  dst_is_internal LittleEndian no_egress 0x0100007F = true /\
  dst_is_internal LittleEndian no_egress 0x08080808 = false /\
  dst_is_internal LittleEndian no_egress ip_203_0_113_42 = false /\
  dst_is_internal LittleEndian one_cidr ip_203_0_113_42 = true.
Proof. repeat split; vm_compute; reflexivity. Qed.

(** C1 (as amended): for a 32-bit address, the classifier decides Internal
    exactly when the host-order address lies in 10.0.0.0/8, 172.16.0.0/12,
    192.168.0.0/16 or 127.0.0.0/8, or some configured entry with index below
    min (configured count, 16) matches it by
    [(address & mask) == (network & mask)].  The configured-range check looks
    the entries up in index order from 0, stops at the first match, and
    otherwise stops after min (configured count, 16) entries; it never
    looks an entry up at index 16 or above. *)
Theorem classifier_internal_iff_first_sixteen
    (bo : byte_order) (m : maps) (ip : Z) :
  0 <= ip < 2 ^ 32 ->
  (dst_is_internal bo m ip = true <->
     private_range (bpf_ntohl bo ip) \/
     exists i, 0 <= i < examined_count m /\
               entry_matches (cluster_cidrs m) ip i) /\
  (if is_internal_ip m ip
   then exists j, 0 <= j < examined_count m /\
                  entry_matches (cluster_cidrs m) ip j /\
                  (forall i, 0 <= i < j ->
                             ~ entry_matches (cluster_cidrs m) ip i) /\
                  is_internal_ip_lookups m ip = seqZ 0 (j + 1)
   else is_internal_ip_lookups m ip = seqZ 0 (examined_count m)) /\
  (forall i, i ∈ is_internal_ip_lookups m ip ->
             0 <= i < configured_count m /\ i < 16).
Proof.
  intros Hip.
  pose proof (is_internal_ip_run_spec m ip) as Hrun. cbn zeta in Hrun.
  unfold dst_is_internal, is_internal_ip, is_internal_ip_lookups.
  split; [| split]; cycle 2.
  { intros i Hi. unfold examined_count in Hrun.
    destruct (fst (is_internal_ip_run m ip)).
    - destruct Hrun as (j & Hj & _ & _ & Htrace).
      rewrite Htrace in Hi. apply elem_of_seqZ in Hi. lia.
    - destruct Hrun as [_ Htrace].
      rewrite Htrace in Hi. apply elem_of_seqZ in Hi. lia. }
  - rewrite orb_true_iff, (is_private_ip_spec bo ip Hip).
    destruct (fst (is_internal_ip_run m ip)).
    + destruct Hrun as (j & Hj & Hm & _). split; [| tauto].
      intros _. right. exists j. done.
    + destruct Hrun as [Hnone _]. split.
      * intros [Hp | Hf]; [by left | discriminate].
      * intros [Hp | (i & Hi & Hm)]; [by left |].
        destruct (Hnone i Hi Hm).
  - destruct (fst (is_internal_ip_run m ip)); [exact Hrun | apply Hrun].
Qed.

Lemma classifier_internal_iff_first_sixteen_witness :
  0 <= 0x0A010203 < 2 ^ 32 /\
  ((dst_is_internal BigEndian seventeen_cidrs 0x0A010203 = true <->
      private_range (bpf_ntohl BigEndian 0x0A010203) \/
      exists i, 0 <= i < examined_count seventeen_cidrs /\
                entry_matches (cluster_cidrs seventeen_cidrs) 0x0A010203 i) /\
   (if is_internal_ip seventeen_cidrs 0x0A010203
    then exists j, 0 <= j < examined_count seventeen_cidrs /\
                   entry_matches (cluster_cidrs seventeen_cidrs) 0x0A010203 j /\
                   (forall i, 0 <= i < j ->
                      ~ entry_matches (cluster_cidrs seventeen_cidrs)
                          0x0A010203 i) /\
                   is_internal_ip_lookups seventeen_cidrs 0x0A010203
                   = seqZ 0 (j + 1)
    else is_internal_ip_lookups seventeen_cidrs 0x0A010203
         = seqZ 0 (examined_count seventeen_cidrs)) /\
   (forall i, i ∈ is_internal_ip_lookups seventeen_cidrs 0x0A010203 ->
              0 <= i < configured_count seventeen_cidrs /\ i < 16)).
Proof.
  split; [lia |].
  apply (classifier_internal_iff_first_sixteen BigEndian seventeen_cidrs
           0x0A010203).
  lia.
Defined.

(** C1 (as stated) fails: with 17 configured ranges of which only the one at
    index 16 contains 203.0.113.42, index 16 is below the configured count
    and its entry matches, yet the classifier decides External. *)
Lemma classifier_ignores_seventeenth_entry :
  16 < configured_count seventeen_cidrs /\
  entry_matches (cluster_cidrs seventeen_cidrs) ip_203_0_113_42 16 /\
  ~ private_range (bpf_ntohl LittleEndian ip_203_0_113_42) /\
  dst_is_internal LittleEndian seventeen_cidrs ip_203_0_113_42 = false.
Proof.
  split; [vm_compute; reflexivity |]. split.
  - split; [lia |]. exists cidr_203_0_113_0_24. split; reflexivity.
  - split; [| vm_compute; reflexivity].
    unfold private_range, in_block. vm_compute. intuition congruence.
Qed.

End classifier.

(** ** The flow table under the two cgroup hooks *)

Section flow_table.
Import flow_tracker.

Lemma parse_l4_exit (bo : byte_order) (skb : sk_buff) (ret : Z) :
  parse_l4 bo skb = Exit ret -> ret = 1.
Proof.
  unfold parse_l4. cbn zeta. intros Hp.
  repeat case_match; congruence.
Qed.

Lemma track_egress_parsed (bo : byte_order) (m : maps) (k : kernel)
    (skb : sk_buff) (t : l4_tuple) :
  parse_l4 bo skb = Headers t ->
  track_egress bo m k skb =
    (set_flow_map m
       match flow_map m !! egress_flow_key t with
       | Some _ =>
           alter (sent_update (skb_len skb) (ktime_get_ns k))
             (egress_flow_key t) (flow_map m)
       | None =>
           if Z.of_nat (size (flow_map m)) <? MAX_ENTRIES
           then <[egress_flow_key t :=
                    new_flow_metrics k skb (ktime_get_ns k)]> (flow_map m)
           else flow_map m
       end, 1).
Proof.
  intros Hp. unfold track_egress. rewrite Hp. cbn zeta.
  destruct (flow_map m !! egress_flow_key t) as [old |] eqn:Hold.
  - unfold sent_update. by rewrite !alter_alter_eq.
  - unfold bpf_hash_update. rewrite Hold.
    by destruct (Z.of_nat (size (flow_map m)) <? MAX_ENTRIES).
Qed.

Lemma track_ingress_parsed (bo : byte_order) (m : maps) (k : kernel)
    (skb : sk_buff) (t : l4_tuple) :
  parse_l4 bo skb = Headers t ->
  track_ingress bo m k skb =
    match flow_map m !! ingress_flow_key t with
    | Some _ =>
        (set_flow_map m
           (alter (received_update (skb_len skb) (ktime_get_ns k))
              (ingress_flow_key t) (flow_map m)), 1)
    | None => (m, 1)
    end.
Proof.
  intros Hp. unfold track_ingress. rewrite Hp. cbn zeta.
  destruct (flow_map m !! ingress_flow_key t) as [old |] eqn:Hold; [| done].
  unfold received_update. by rewrite !alter_alter_eq.
Qed.

(** What one hook invocation does to the entry of an arbitrary key. *)
Lemma track_egress_lookup (bo : byte_order) (m : maps) (k : kernel)
    (skb : sk_buff) (key : flow_key) :
  flow_map (fst (track_egress bo m k skb)) !! key =
    match outbound_len bo key (Egress k skb) with
    | Some len =>
        match flow_map m !! key with
        | Some old => Some (sent_update len (ktime_get_ns k) old)
        | None =>
            if Z.of_nat (size (flow_map m)) <? MAX_ENTRIES
            then Some (new_flow_metrics k skb (ktime_get_ns k))
            else None
        end
    | None => flow_map m !! key
    end.
Proof.
  unfold outbound_len.
  destruct (parse_l4 bo skb) as [ret | t] eqn:Hp.
  - unfold track_egress. by rewrite Hp.
  - rewrite (track_egress_parsed bo m k skb t Hp). cbn [fst flow_map set_flow_map].
    destruct (decide (egress_flow_key t = key)) as [<- | Hne].
    + destruct (flow_map m !! egress_flow_key t) as [old |] eqn:Hold.
      * by rewrite lookup_alter_eq, Hold.
      * destruct (Z.of_nat (size (flow_map m)) <? MAX_ENTRIES);
          [by rewrite lookup_insert_eq | done].
    + destruct (flow_map m !! egress_flow_key t) as [old |] eqn:Hold.
      * by rewrite lookup_alter_ne.
      * destruct (Z.of_nat (size (flow_map m)) <? MAX_ENTRIES);
          [by rewrite lookup_insert_ne | done].
Qed.

Lemma track_ingress_lookup (bo : byte_order) (m : maps) (k : kernel)
    (skb : sk_buff) (key : flow_key) :
  flow_map (fst (track_ingress bo m k skb)) !! key =
    match inbound_len bo key (Ingress k skb) with
    | Some len => received_update len (ktime_get_ns k) <$> flow_map m !! key
    | None => flow_map m !! key
    end.
Proof.
  unfold inbound_len.
  destruct (parse_l4 bo skb) as [ret | t] eqn:Hp.
  - unfold track_ingress. by rewrite Hp.
  - rewrite (track_ingress_parsed bo m k skb t Hp).
    destruct (decide (ingress_flow_key t = key)) as [<- | Hne].
    + destruct (flow_map m !! ingress_flow_key t) as [old |] eqn:Hold.
      * cbn [fst flow_map set_flow_map]. by rewrite lookup_alter_eq, Hold.
      * cbn [fst]. by rewrite Hold.
    + destruct (flow_map m !! ingress_flow_key t) as [old |] eqn:Hold; [| done].
      cbn [fst flow_map set_flow_map]. by rewrite lookup_alter_ne.
Qed.

Lemma track_egress_ret (bo : byte_order) (m : maps) (k : kernel)
    (skb : sk_buff) :
  snd (track_egress bo m k skb) = 1.
Proof.
  unfold track_egress.
  destruct (parse_l4 bo skb) as [ret | t] eqn:Hp;
    [exact (parse_l4_exit bo skb ret Hp) |].
  cbn zeta. by destruct (flow_map m !! egress_flow_key t).
Qed.

Lemma track_ingress_ret (bo : byte_order) (m : maps) (k : kernel)
    (skb : sk_buff) :
  snd (track_ingress bo m k skb) = 1.
Proof.
  unfold track_ingress.
  destruct (parse_l4 bo skb) as [ret | t] eqn:Hp;
    [exact (parse_l4_exit bo skb ret Hp) |].
  cbn zeta. by destruct (flow_map m !! ingress_flow_key t).
Qed.

Lemma flush_flows_ret (m : maps) (ctx : option flow_key * option flow_metrics) :
  snd (flush_flows m ctx) = 0 /\
  flow_map (fst (flush_flows m ctx)) = flow_map m /\
  config (fst (flush_flows m ctx)) = config m.
Proof. unfold flush_flows. by repeat case_match. Qed.

Lemma add64_range (a b : Z) : 0 <= add64 a b < 2 ^ 64.
Proof. unfold add64. apply Z.mod_pos_bound. lia. Qed.

(** Closes the range and value goals about one counter after one step. *)
Ltac solve_counter :=
  first
    [ lia
    | match goal with
      | |- context [add64 ?a ?b] => pose proof (add64_range a b); lia
      end
    | unfold add64; f_equal; lia
    | rewrite Z.mod_small by lia; lia ].

(** One invocation, seen from an existing entry. *)
Lemma run_hook_entry (bo : byte_order) (m : maps) (c : hook_call)
    (key : flow_key) (old : flow_metrics) :
  flow_map m !! key = Some old -> counters_in_range old ->
  exists new,
    flow_map (run_hook bo m c) !! key = Some new /\
    counters_in_range new /\
    bytes_sent new
    = (bytes_sent old + bytes_applied (outbound_len bo key) [c]) mod 2 ^ 64 /\
    packets_sent new
    = (packets_sent old + packets_applied (outbound_len bo key) [c])
      mod 2 ^ 64 /\
    bytes_received new
    = (bytes_received old + bytes_applied (inbound_len bo key) [c])
      mod 2 ^ 64 /\
    packets_received new
    = (packets_received old + packets_applied (inbound_len bo key) [c])
      mod 2 ^ 64.
Proof.
  intros Hold (Hbs & Hps & Hbr & Hpr).
  unfold bytes_applied, packets_applied.
  destruct c as [k skb | k skb | ctx]; cbn [run_hook omap list_omap].
  - rewrite track_egress_lookup, Hold.
    change (inbound_len bo key (Egress k skb)) with (@None Z).
    destruct (outbound_len bo key (Egress k skb)) as [len |];
      eexists; (split; [reflexivity |]); cbn;
      unfold counters_in_range; cbn; repeat split; solve_counter.
  - rewrite track_ingress_lookup, Hold.
    change (outbound_len bo key (Ingress k skb)) with (@None Z).
    destruct (inbound_len bo key (Ingress k skb)) as [len |];
      eexists; (split; [reflexivity |]); cbn;
      unfold counters_in_range; cbn; repeat split; solve_counter.
  - destruct (flush_flows_ret m ctx) as (_ & -> & _). rewrite Hold.
    change (outbound_len bo key (Flush ctx)) with (@None Z).
    change (inbound_len bo key (Flush ctx)) with (@None Z).
    eexists; (split; [reflexivity |]); cbn;
      unfold counters_in_range; cbn; repeat split; solve_counter.
Qed.

Lemma bytes_applied_cons (f : hook_call -> option Z) (c : hook_call)
    (cs : list hook_call) :
  bytes_applied f (c :: cs) = bytes_applied f [c] + bytes_applied f cs.
Proof.
  unfold bytes_applied, sum_Z. cbn [omap list_omap].
  destruct (f c); cbn [foldr]; lia.
Qed.

Lemma packets_applied_cons (f : hook_call -> option Z) (c : hook_call)
    (cs : list hook_call) :
  packets_applied f (c :: cs) = packets_applied f [c] + packets_applied f cs.
Proof.
  unfold packets_applied. cbn [omap list_omap].
  destruct (f c); cbn [length]; lia.
Qed.

Lemma packets_applied_nonneg (f : hook_call -> option Z)
    (cs : list hook_call) :
  0 <= packets_applied f cs.
Proof. unfold packets_applied. lia. Qed.

(** A whole sequence of invocations, seen from an existing entry. *)
Lemma run_hooks_entry (bo : byte_order) (key : flow_key)
    (cs : list hook_call) :
  forall (m : maps) (old : flow_metrics),
    flow_map m !! key = Some old -> counters_in_range old ->
    exists new,
      flow_map (run_hooks bo m cs) !! key = Some new /\
      counters_in_range new /\
      bytes_sent new
      = (bytes_sent old + bytes_applied (outbound_len bo key) cs) mod 2 ^ 64 /\
      packets_sent new
      = (packets_sent old + packets_applied (outbound_len bo key) cs)
        mod 2 ^ 64 /\
      bytes_received new
      = (bytes_received old + bytes_applied (inbound_len bo key) cs)
        mod 2 ^ 64 /\
      packets_received new
      = (packets_received old + packets_applied (inbound_len bo key) cs)
        mod 2 ^ 64.
Proof.
  induction cs as [| c cs IH]; intros m old Hold Hrange.
  - exists old. split; [exact Hold |]. split; [exact Hrange |].
    destruct Hrange as (? & ? & ? & ?).
    unfold bytes_applied, packets_applied. cbn.
    rewrite !Z.add_0_r, !(Z.mod_small _ (2 ^ 64)) by lia. done.
  - destruct (run_hook_entry bo m c key old Hold Hrange)
      as (mid & Hmid & Hmid_range & Hbs & Hps & Hbr & Hpr).
    destruct (IH (run_hook bo m c) mid Hmid Hmid_range)
      as (new & Hnew & Hnew_range & Hbs' & Hps' & Hbr' & Hpr').
    exists new. split; [exact Hnew |]. split; [exact Hnew_range |].
    rewrite Hbs', Hps', Hbr', Hpr', Hbs, Hps, Hbr, Hpr.
    rewrite !(bytes_applied_cons _ c cs), !(packets_applied_cons _ c cs).
    rewrite !Zplus_mod_idemp_l, !Z.add_assoc. done.
Qed.

(** When the table is full, the first packet of a further flow is let
    through and the maps stay as they were. *)
Lemma track_egress_full_table (bo : byte_order) (m : maps) (k : kernel)
    (skb : sk_buff) (t : l4_tuple) :
  parse_l4 bo skb = Headers t ->
  flow_map m !! egress_flow_key t = None ->
  MAX_ENTRIES <= Z.of_nat (size (flow_map m)) ->
  track_egress bo m k skb = (m, 1).
Proof.
  intros Hp Hnone Hfull.
  rewrite (track_egress_parsed bo m k skb t Hp), Hnone.
  destruct (Z.ltb_spec (Z.of_nat (size (flow_map m))) MAX_ENTRIES); [lia |].
  by destruct m.
Qed.

(** A packet whose headers do not all lie within the packet data, or that
    is not IPv4 TCP or UDP, is let through and the maps stay as they were. *)
Lemma track_egress_unparsed (bo : byte_order) (m : maps) (k : kernel)
    (skb : sk_buff) (ret : Z) :
  parse_l4 bo skb = Exit ret -> track_egress bo m k skb = (m, 1).
Proof.
  intros Hp. unfold track_egress. rewrite Hp.
  by rewrite (parse_l4_exit bo skb ret Hp).
Qed.

Lemma full_flow_map_size : size full_flow_map = Z.to_nat MAX_ENTRIES.
Proof.
  unfold full_flow_map.
  rewrite map_size_list_to_map.
  - by rewrite length_fmap, length_seq.
  - rewrite <- list_fmap_compose.
    apply NoDup_fmap_2_strong; [| apply NoDup_seq].
    intros i j _ _ Hij. unfold filler_key, create_flow_key in Hij.
    cbn in Hij. injection Hij as Hij. lia.
Qed.

Lemma full_flow_map_lookup_example : full_flow_map !! example_key = None.
Proof.
  unfold full_flow_map. apply not_elem_of_list_to_map_1.
  rewrite <- list_fmap_compose. intros Hin.
  apply list_elem_of_fmap in Hin as (i & Hi & _).
  unfold example_key, filler_key, create_flow_key in Hi. cbn in Hi.
  discriminate Hi.
Qed.

(** An outbound packet creates the entry of its flow and the reply updates
    the received counters of that same entry. *)
Example outbound_then_reply :
  flow_map (run_hooks LittleEndian no_flows
              [Egress some_task outbound_external;
               Ingress some_task inbound_reply]) !! example_key
  = Some {| bytes_sent := 100; bytes_received := 1500;
            packets_sent := 1; packets_received := 1;
            start_time_ns := 1000; last_seen_ns := 1000;
            pid := 42; uid := 500; comm := [] |}.
Proof. vm_compute. reflexivity. Qed.

(** The example packet and its reply parse to mirrored tuples, which the
    two hooks turn into one key. *)
Example reply_addresses_same_entry :
  parse_l4 LittleEndian outbound_external = Headers example_tuple /\
  parse_l4 LittleEndian inbound_reply = Headers reply_tuple /\
  egress_flow_key example_tuple = example_key /\
  ingress_flow_key reply_tuple = example_key.
Proof. repeat split; vm_compute; reflexivity. Qed.

(** C3: the outbound path builds, from source (A, pA) and destination
    (B, pB), the key the inbound path builds from source (B, pB) and
    destination (A, pA); both directions therefore address the same flow
    table entry. *)
Theorem flow_key_direction_symmetric (A B pA pB proto : Z) :
  let outbound := {| saddr := A; daddr := B; source := pA; dest := pB;
                     ip_proto := proto |} in
  let inbound := {| saddr := B; daddr := A; source := pB; dest := pA;
                    ip_proto := proto |} in
  egress_flow_key outbound = ingress_flow_key inbound /\
  egress_flow_key outbound = create_flow_key A B pA pB proto /\
  forall m : maps,
    flow_map m !! egress_flow_key outbound
    = flow_map m !! ingress_flow_key inbound.
Proof. cbn zeta. split; [reflexivity |]. split; reflexivity. Qed.

(** C4: if the table has no entry for a key, an inbound update for that key
    returns with the maps unchanged; any sequence of such updates leaves the
    maps unchanged, and any sequence of inbound updates at all leaves the key
    without an entry. *)
Theorem inbound_never_creates (bo : byte_order) (m : maps) (key : flow_key) :
  flow_map m !! key = None ->
  (forall k skb, ingress_for bo key (Ingress k skb) ->
                 track_ingress bo m k skb = (m, 1)) /\
  (forall cs, Forall (ingress_for bo key) cs -> run_hooks bo m cs = m) /\
  (forall cs, Forall is_ingress cs ->
              flow_map (run_hooks bo m cs) !! key = None).
Proof.
  intros Hnone.
  assert (Hone : forall k skb, ingress_for bo key (Ingress k skb) ->
                               track_ingress bo m k skb = (m, 1)).
  { intros k skb Hfor. cbn in Hfor.
    pose proof (track_ingress_ret bo m k skb) as Hret.
    unfold track_ingress in *.
    destruct (parse_l4 bo skb) as [ret | t] eqn:Hp.
    - cbn in Hret. by subst ret.
    - cbn zeta. by rewrite (Hfor t eq_refl), Hnone. }
  split; [exact Hone |]. split.
  - intros cs Hcs. induction Hcs as [| c cs Hc _ IH]; [done |].
    destruct c as [k skb | k skb | ctx]; [done | | done].
    unfold run_hooks in *. cbn [foldl run_hook].
    by rewrite (Hone k skb Hc).
  - intros cs. revert m Hnone Hone.
    induction cs as [| c cs IH]; intros m Hnone _ Hcs; [done |].
    apply Forall_cons in Hcs as [Hc Hcs].
    destruct c as [k skb | k skb | ctx]; [done | | done].
    unfold run_hooks in *. cbn [foldl]. apply IH; [| | exact Hcs].
    + cbn [run_hook]. rewrite track_ingress_lookup, Hnone.
      by destruct (inbound_len bo key (Ingress k skb)).
    + intros k' skb' Hfor.
      pose proof (track_ingress_ret bo (run_hook bo m (Ingress k skb)) k' skb')
        as Hret.
      assert (Hnone' :
        flow_map (run_hook bo m (Ingress k skb)) !! key = None).
      { cbn [run_hook]. rewrite track_ingress_lookup, Hnone.
        by destruct (inbound_len bo key (Ingress k skb)). }
      cbn in Hfor. unfold track_ingress in *.
      destruct (parse_l4 bo skb') as [ret | t] eqn:Hp.
      * cbn in Hret. by subst ret.
      * cbn zeta. by rewrite (Hfor t eq_refl), Hnone'.
Qed.

Lemma inbound_never_creates_witness :
  flow_map no_flows !! example_key = None /\
  track_ingress LittleEndian no_flows some_task inbound_reply = (no_flows, 1).
Proof.
  split; [reflexivity |].
  apply (inbound_never_creates LittleEndian no_flows example_key);
    [reflexivity |].
  intros t Ht. vm_compute in Ht. injection Ht as <-. reflexivity.
Defined.

(** C5 (as amended): on a packet that parses to a tuple, the outbound hook
    creates the entry of the tuple's key when there is none and the table
    holds fewer than [MAX_ENTRIES] entries, with [bytes_sent] the packet
    length, [packets_sent] 1, both timestamps the current time, and the
    process id, user id and name of the current task; when the entry exists
    it adds the packet length to [bytes_sent] and 1 to [packets_sent] (64-bit
    additions), sets [last_seen_ns] and leaves the other fields alone; when
    there is no entry and the table is full, it returns with the maps
    unchanged. *)
Theorem outbound_upsert_contract (bo : byte_order) (m : maps) (k : kernel)
    (skb : sk_buff) (t : l4_tuple) :
  parse_l4 bo skb = Headers t ->
  let key := egress_flow_key t in
  let now := ktime_get_ns k in
  let m' := fst (track_egress bo m k skb) in
  (flow_map m !! key = None ->
   Z.of_nat (size (flow_map m)) < MAX_ENTRIES ->
   flow_map m' !! key
   = Some {| bytes_sent := skb_len skb; bytes_received := 0;
             packets_sent := 1; packets_received := 0;
             start_time_ns := now; last_seen_ns := now;
             pid := Z.shiftr (current_pid_tgid k) 32 mod 2 ^ 32;
             uid := Z.land (current_uid_gid k) 0xFFFFFFFF;
             comm := current_comm k |}) /\
  (forall old, flow_map m !! key = Some old ->
   flow_map m' !! key
   = Some {| bytes_sent := add64 (bytes_sent old) (skb_len skb);
             bytes_received := bytes_received old;
             packets_sent := add64 (packets_sent old) 1;
             packets_received := packets_received old;
             start_time_ns := start_time_ns old; last_seen_ns := now;
             pid := pid old; uid := uid old; comm := comm old |}) /\
  (flow_map m !! key = None ->
   MAX_ENTRIES <= Z.of_nat (size (flow_map m)) ->
   track_egress bo m k skb = (m, 1)).
Proof.
  intros Hp. cbn zeta.
  rewrite track_egress_lookup. unfold outbound_len. rewrite Hp.
  rewrite decide_True by reflexivity. split; [| split].
  - intros -> Hroom.
    by destruct (Z.ltb_spec (Z.of_nat (size (flow_map m))) MAX_ENTRIES);
      [| lia].
  - by intros old ->.
  - apply track_egress_full_table, Hp.
Qed.

Lemma outbound_upsert_contract_witness :
  parse_l4 LittleEndian outbound_external = Headers example_tuple /\
  flow_map no_flows !! egress_flow_key example_tuple = None /\
  Z.of_nat (size (flow_map no_flows)) < MAX_ENTRIES /\
  flow_map (fst (track_egress LittleEndian no_flows some_task
                   outbound_external)) !! egress_flow_key example_tuple
  = Some {| bytes_sent := 100; bytes_received := 0;
            packets_sent := 1; packets_received := 0;
            start_time_ns := 1000; last_seen_ns := 1000;
            pid := 42; uid := 500; comm := [] |}.
Proof.
  split; [reflexivity |]. split; [reflexivity |]. split; [reflexivity |].
  apply (outbound_upsert_contract LittleEndian no_flows some_task
           outbound_external example_tuple); reflexivity.
Defined.

(** C5 (as stated) fails: when the table already holds [MAX_ENTRIES] flows,
    the first outbound packet of a further flow creates no entry. *)
Lemma outbound_upsert_dropped_when_full :
  parse_l4 LittleEndian outbound_external = Headers example_tuple /\
  flow_map full_table !! egress_flow_key example_tuple = None /\
  flow_map (fst (track_egress LittleEndian full_table some_task
                   outbound_external)) !! egress_flow_key example_tuple
  = None.
Proof.
  assert (Hp : parse_l4 LittleEndian outbound_external
               = Headers example_tuple) by (vm_compute; reflexivity).
  change (egress_flow_key example_tuple) with example_key.
  split; [exact Hp |]. split; [exact full_flow_map_lookup_example |].
  rewrite track_egress_lookup. unfold outbound_len. rewrite Hp.
  change (egress_flow_key example_tuple) with example_key.
  rewrite decide_True by reflexivity.
  change (flow_map full_table) with full_flow_map.
  rewrite full_flow_map_lookup_example, full_flow_map_size.
  rewrite Z2Nat.id by (unfold MAX_ENTRIES; lia).
  by rewrite Z.ltb_irrefl.
Qed.

(** C9 (as amended): for an existing entry, the outbound hook leaves
    [bytes_received] and [packets_received] unchanged, the inbound hook
    leaves [bytes_sent] and [packets_sent] unchanged and the flush program
    leaves the entry as it is; after any sequence of runs of the three
    programs each counter equals its earlier value plus the total
    length, respectively the number, of the packets applied to the entry in
    its direction, modulo 2^64; so a counter has not decreased whenever that
    sum is below 2^64. *)
Theorem counters_direction_separated (bo : byte_order) (m : maps)
    (key : flow_key) (old : flow_metrics) :
  flow_map m !! key = Some old -> counters_in_range old ->
  (forall k skb, exists new,
     flow_map (run_hook bo m (Egress k skb)) !! key = Some new /\
     bytes_received new = bytes_received old /\
     packets_received new = packets_received old) /\
  (forall k skb, exists new,
     flow_map (run_hook bo m (Ingress k skb)) !! key = Some new /\
     bytes_sent new = bytes_sent old /\
     packets_sent new = packets_sent old) /\
  (forall ctx, flow_map (run_hook bo m (Flush ctx)) !! key = Some old) /\
  (forall cs, exists new,
     flow_map (run_hooks bo m cs) !! key = Some new /\
     bytes_sent new
     = (bytes_sent old + bytes_applied (outbound_len bo key) cs) mod 2 ^ 64 /\
     packets_sent new
     = (packets_sent old + packets_applied (outbound_len bo key) cs)
       mod 2 ^ 64 /\
     bytes_received new
     = (bytes_received old + bytes_applied (inbound_len bo key) cs)
       mod 2 ^ 64 /\
     packets_received new
     = (packets_received old + packets_applied (inbound_len bo key) cs)
       mod 2 ^ 64 /\
     (0 <= bytes_applied (outbound_len bo key) cs ->
      bytes_sent old + bytes_applied (outbound_len bo key) cs < 2 ^ 64 ->
      bytes_sent old <= bytes_sent new) /\
     (packets_sent old + packets_applied (outbound_len bo key) cs < 2 ^ 64 ->
      packets_sent old <= packets_sent new) /\
     (0 <= bytes_applied (inbound_len bo key) cs ->
      bytes_received old + bytes_applied (inbound_len bo key) cs < 2 ^ 64 ->
      bytes_received old <= bytes_received new) /\
     (packets_received old + packets_applied (inbound_len bo key) cs < 2 ^ 64 ->
      packets_received old <= packets_received new)).
Proof.
  intros Hold Hrange. pose proof Hrange as (Hbs & Hps & Hbr & Hpr).
  split; [| split; [| split]].
  - intros k skb.
    destruct (run_hook_entry bo m (Egress k skb) key old Hold Hrange)
      as (new & Hnew & _ & _ & _ & Hr & Hp).
    exists new. split; [exact Hnew |].
    unfold bytes_applied, packets_applied in Hr, Hp. cbn in Hr, Hp.
    rewrite Hr, Hp, !Z.add_0_r, !Z.mod_small by lia. done.
  - intros k skb.
    destruct (run_hook_entry bo m (Ingress k skb) key old Hold Hrange)
      as (new & Hnew & _ & Hb & Hp & _).
    exists new. split; [exact Hnew |].
    unfold bytes_applied, packets_applied in Hb, Hp. cbn in Hb, Hp.
    rewrite Hb, Hp, !Z.add_0_r, !Z.mod_small by lia. done.
  - intros ctx. cbn [run_hook].
    by destruct (flush_flows_ret m ctx) as (_ & -> & _).
  - intros cs.
    destruct (run_hooks_entry bo key cs m old Hold Hrange)
      as (new & Hnew & _ & Hb & Hp & Hb' & Hp').
    pose proof (packets_applied_nonneg (outbound_len bo key) cs).
    pose proof (packets_applied_nonneg (inbound_len bo key) cs).
    exists new. split; [exact Hnew |].
    do 4 (split; [assumption |]).
    rewrite Hb, Hp, Hb', Hp'.
    repeat split; intros; rewrite Z.mod_small by lia; lia.
Qed.

Lemma counters_direction_separated_witness :
  flow_map saturated_table !! example_key = Some saturated_metrics /\
  counters_in_range saturated_metrics /\
  exists new,
    flow_map (run_hooks LittleEndian saturated_table
                [Ingress some_task inbound_reply]) !! example_key
    = Some new /\
    bytes_received new
    = (bytes_received saturated_metrics
       + bytes_applied (inbound_len LittleEndian example_key)
           [Ingress some_task inbound_reply]) mod 2 ^ 64.
Proof.
  assert (Hrange : counters_in_range saturated_metrics).
  { unfold counters_in_range, saturated_metrics, packets_to_saturation.
    cbn. lia. }
  split; [reflexivity |]. split; [exact Hrange |].
  destruct (counters_direction_separated LittleEndian saturated_table
              example_key saturated_metrics eq_refl Hrange)
    as (_ & _ & _ & Hseq).
  destruct (Hseq [Ingress some_task inbound_reply])
    as (new & Hnew & _ & _ & Hbr & _).
  exists new. split; [exact Hnew | exact Hbr].
Defined.

Lemma run_hooks_cons (bo : byte_order) (m : maps) (c : hook_call)
    (cs : list hook_call) :
  run_hooks bo m (c :: cs) = run_hooks bo (run_hook bo m c) cs.
Proof. reflexivity. Qed.

(** [n] further packets of a flow whose entry [old] was last written at
    time [now]. *)
Lemma iter_sent_update (len now : Z) (old : flow_metrics) (n : nat) :
  counters_in_range old -> last_seen_ns old = now ->
  Nat.iter n (sent_update len now) old
  = {| bytes_sent := (bytes_sent old + Z.of_nat n * len) mod 2 ^ 64;
       bytes_received := bytes_received old;
       packets_sent := (packets_sent old + Z.of_nat n) mod 2 ^ 64;
       packets_received := packets_received old;
       start_time_ns := start_time_ns old; last_seen_ns := now;
       pid := pid old; uid := uid old; comm := comm old |}.
Proof.
  intros (Hbs & Hps & _ & _) Hnow. induction n as [| n IH].
  - destruct old; cbn in *. subst now.
    f_equal; rewrite Z.mod_small by lia; lia.
  - rewrite Nat.iter_succ, IH.
    unfold sent_update, set_last_seen_ns, add_packets_sent, add_bytes_sent,
      add64. cbn.
    f_equal; rewrite Zplus_mod_idemp_l; f_equal;
      rewrite ?Nat2Z.inj_succ; lia.
Qed.

Lemma run_hooks_replicate_egress (bo : byte_order) (k : kernel)
    (skb : sk_buff) (t : l4_tuple) (evs : list flow_event) (cfg : list Z) :
  parse_l4 bo skb = Headers t ->
  forall (n : nat) (old : flow_metrics),
    run_hooks bo
      {| flow_map := {[ egress_flow_key t := old ]};
         events := evs; config := cfg |}
      (replicate n (Egress k skb))
    = {| flow_map :=
           {[ egress_flow_key t :=
                Nat.iter n (sent_update (skb_len skb) (ktime_get_ns k)) old ]};
         events := evs; config := cfg |}.
Proof.
  intros Hp. induction n as [| n IH]; intros old; [done |].
  rewrite Nat.iter_succ_r, <- IH.
  unfold run_hooks. cbn [replicate foldl run_hook]. f_equal.
  rewrite (track_egress_parsed bo _ k skb t Hp).
  cbn [flow_map fst]. rewrite lookup_singleton_eq.
  unfold set_flow_map. cbn [events config].
  by rewrite alter_singleton_eq.
Qed.

(** The saturated table is what [packets_to_saturation] packets of the
    example flow make of the empty table. *)
Lemma saturated_table_reachable :
  run_hooks LittleEndian no_flows
    (replicate (Z.to_nat packets_to_saturation)
       (Egress some_task outbound_external))
  = saturated_table.
Proof.
  assert (Hp : parse_l4 LittleEndian outbound_external
               = Headers example_tuple) by (vm_compute; reflexivity).
  assert (Hn : exists n, Z.to_nat packets_to_saturation = S n /\
                         Z.of_nat n = packets_to_saturation - 1).
  { exists (Z.to_nat (packets_to_saturation - 1)).
    unfold packets_to_saturation. lia. }
  destruct Hn as (n & -> & Hn).
  cbn [replicate]. rewrite run_hooks_cons.
  assert (Hfirst :
    run_hook LittleEndian no_flows (Egress some_task outbound_external)
    = {| flow_map :=
           {[ egress_flow_key example_tuple :=
                new_flow_metrics some_task outbound_external 1000 ]};
         events := []; config := [0] |}).
  { cbn [run_hook].
    rewrite (track_egress_parsed LittleEndian _ _ _ example_tuple Hp).
    reflexivity. }
  rewrite Hfirst.
  rewrite (run_hooks_replicate_egress LittleEndian some_task
             outbound_external example_tuple [] [0] Hp).
  rewrite iter_sent_update;
    [| unfold counters_in_range; cbn; lia | reflexivity].
  rewrite Hn. reflexivity.
Qed.

(** C9 (as stated) fails: 184467440737095516 outbound packets of 100 bytes
    bring the [bytes_sent] of their flow to 2^64 - 16; the next one leaves
    it at 84, which is less than before and is not the sum of the lengths
    applied. *)
Lemma sent_counter_wraps :
  flow_map saturated_table !! example_key = Some saturated_metrics /\
  outbound_len LittleEndian example_key (Egress some_task outbound_external)
  = Some 100 /\
  exists new,
    flow_map (run_hook LittleEndian saturated_table
                (Egress some_task outbound_external)) !! example_key
    = Some new /\
    bytes_sent new = 84 /\
    bytes_sent new < bytes_sent saturated_metrics.
Proof.
  split; [reflexivity |]. split; [vm_compute; reflexivity |].
  exists (sent_update 100 1000 saturated_metrics).
  split; [vm_compute; reflexivity |]. split; [reflexivity |].
  vm_compute. reflexivity.
Qed.

End flow_table.

(** ** The egress monitor *)

Section egress_gate.
Import egress_monitor.

Lemma monitor_egress_ret (bo : byte_order) (m : maps) (now : Z)
    (skb : sk_buff) :
  snd (monitor_egress bo m now skb) = TC_ACT_OK.
Proof.
  unfold monitor_egress, monitor_egress_record. cbn zeta.
  repeat case_match; reflexivity.
Qed.

Lemma parse_l4_daddr (bo : byte_order) (skb : sk_buff)
    (t : flow_tracker.l4_tuple) :
  flow_tracker.parse_l4 bo skb = flow_tracker.Headers t ->
  flow_tracker.daddr t = ip_daddr bo (skb_data skb) (0 + sizeof_ethhdr).
Proof.
  unfold flow_tracker.parse_l4. cbn zeta. intros Hp.
  repeat case_match; try discriminate; by injection Hp as <-.
Qed.

(** An internal destination ends [monitor_egress] before it touches a map. *)
Lemma monitor_egress_internal (bo : byte_order) (m : maps) (now : Z)
    (skb : sk_buff) :
  dst_is_internal bo m (ip_daddr bo (skb_data skb) (0 + sizeof_ethhdr)) = true ->
  monitor_egress bo m now skb = (m, TC_ACT_OK).
Proof.
  intros Hint. unfold monitor_egress. cbn zeta. rewrite Hint.
  repeat case_match; reflexivity.
Qed.

(** When the ring buffer has no room, nothing is queued and the packet is
    let through. *)
Lemma monitor_egress_ringbuf_full (bo : byte_order) (m : maps) (now : Z)
    (skb : sk_buff) :
  bpf_ringbuf_reserve egress_events_size sizeof_egress_event (egress_events m)
  = false ->
  egress_events (fst (monitor_egress bo m now skb)) = egress_events m /\
  snd (monitor_egress bo m now skb) = TC_ACT_OK.
Proof.
  intros Hfull. split; [| apply monitor_egress_ret].
  unfold monitor_egress, monitor_egress_record. cbn zeta.
  cbn [egress_events]. rewrite Hfull. cbn [negb].
  repeat case_match; reflexivity.
Qed.

(** C6: for an outbound packet that parses to a tuple whose destination the
    classifier decides Internal, [monitor_egress] returns with its maps
    unchanged, so no event is queued and no aggregator total changes, while
    [track_egress] treats the packet as any other: an existing entry of its
    key is updated, an absent one is created if the table has room. *)
Theorem internal_destination_gates_egress_only
    (bo : byte_order) (em : maps) (fm : flow_tracker.maps) (now : Z)
    (k : flow_tracker.kernel) (skb : sk_buff) (t : flow_tracker.l4_tuple) :
  flow_tracker.parse_l4 bo skb = flow_tracker.Headers t ->
  dst_is_internal bo em (flow_tracker.daddr t) = true ->
  let em' := fst (monitor_egress bo em now skb) in
  let fm' := fst (flow_tracker.track_egress bo fm k skb) in
  let key := flow_tracker.egress_flow_key t in
  em' = em /\
  egress_events em' = egress_events em /\
  (forall dst, egress_bytes em' !! dst = egress_bytes em !! dst) /\
  flow_tracker.flow_map fm' !! key =
    match flow_tracker.flow_map fm !! key with
    | Some old =>
        Some (sent_update (skb_len skb) (flow_tracker.ktime_get_ns k) old)
    | None =>
        if Z.of_nat (size (flow_tracker.flow_map fm))
           <? flow_tracker.MAX_ENTRIES
        then Some (flow_tracker.new_flow_metrics k skb
                     (flow_tracker.ktime_get_ns k))
        else None
    end.
Proof.
  intros Hp Hint. cbn zeta.
  rewrite (parse_l4_daddr bo skb t Hp) in Hint.
  rewrite (monitor_egress_internal bo em now skb Hint). cbn [fst].
  split; [done |]. split; [done |]. split; [done |].
  rewrite track_egress_lookup. unfold outbound_len. rewrite Hp.
  by rewrite decide_True.
Qed.

Lemma internal_destination_gates_egress_only_witness :
  flow_tracker.parse_l4 LittleEndian outbound_internal
  = flow_tracker.Headers internal_tuple /\
  dst_is_internal LittleEndian no_egress (flow_tracker.daddr internal_tuple)
  = true /\
  fst (monitor_egress LittleEndian no_egress 1000 outbound_internal)
  = no_egress.
Proof.
  split; [reflexivity |]. split; [reflexivity |].
  apply (internal_destination_gates_egress_only LittleEndian no_egress
           no_flows 1000 some_task outbound_internal internal_tuple);
    reflexivity.
Defined.

(** C7: whatever the maps, the helper results and the packet, the egress
    monitor returns [TC_ACT_OK] and both flow-tracker hooks return 1. *)
Theorem hooks_always_allow (bo : byte_order) (em : maps)
    (fm : flow_tracker.maps) (now : Z) (k : flow_tracker.kernel)
    (skb : sk_buff) :
  snd (monitor_egress bo em now skb) = TC_ACT_OK /\
  snd (flow_tracker.track_egress bo fm k skb) = 1 /\
  snd (flow_tracker.track_ingress bo fm k skb) = 1.
Proof.
  split; [apply monitor_egress_ret |].
  split; [apply track_egress_ret | apply track_ingress_ret].
Qed.

(** C10: the records a run of [monitor_egress] appends to the ring buffer,
    at most one, all have [pid] 0. *)
Theorem egress_event_pid_zero (bo : byte_order) (m : maps) (now : Z)
    (skb : sk_buff) :
  exists new,
    egress_events (fst (monitor_egress bo m now skb))
    = egress_events m ++ new /\
    (length new <= 1)%nat /\
    Forall (fun event => pid event = 0) new.
Proof.
  unfold monitor_egress, monitor_egress_record. cbn zeta.
  repeat case_match;
    first [ exists []; cbn [fst egress_events]; rewrite app_nil_r;
            split; [reflexivity |]; split; [cbn; lia | constructor]
          | eexists [_]; cbn [fst egress_events]; unfold bpf_ringbuf_submit;
            split; [reflexivity |]; split; [cbn; lia |];
            repeat constructor ].
Qed.

(** The run on [outbound_external] queues one such record. *)
Example egress_event_emitted :
  egress_events
    (fst (monitor_egress LittleEndian no_egress 1000 outbound_external))
  = [ {| src_ip := 0x0500000A; dst_ip := 0x22D8B85D;
         src_port := 40000; dst_port := 443; protocol := IPPROTO_TCP;
         bytes := 100; timestamp_ns := 1000; pid := 0 |} ].
Proof. vm_compute. reflexivity. Qed.

End egress_gate.

(** ** The flush walker *)

Section flush_walker.
Import flow_tracker.

Lemma flow_event_record_size : ringbuf_record_size sizeof_flow_event = 104.
Proof. reflexivity. Qed.

Lemma reserve_iff_free (pending : list flow_event) :
  bpf_ringbuf_reserve events_size sizeof_flow_event pending
  = bool_decide (0 < ringbuf_free events_size sizeof_flow_event pending)%nat.
Proof.
  unfold bpf_ringbuf_reserve, ringbuf_free.
  rewrite flow_event_record_size.
  change (events_size / 104) with 2520. unfold events_size.
  destruct (Z.leb_spec ((Z.of_nat (length pending) + 1) * 104) (256 * 1024));
    symmetry; [apply bool_decide_eq_true | apply bool_decide_eq_false]; lia.
Qed.

Lemma ringbuf_free_submit (pending : list flow_event) (event : flow_event) :
  ringbuf_free events_size sizeof_flow_event (bpf_ringbuf_submit pending event)
  = pred (ringbuf_free events_size sizeof_flow_event pending).
Proof.
  unfold ringbuf_free, bpf_ringbuf_submit.
  rewrite length_app. cbn [length]. lia.
Qed.

Lemma iterate_flush_spec (entries : list (flow_key * flow_metrics)) :
  forall m : maps,
    (forall kv, kv ∈ entries -> flow_map m !! fst kv = Some (snd kv)) ->
    iterate_flush m entries.*1
    = (set_events m
         (events m
          ++ take (ringbuf_free events_size sizeof_flow_event (events m))
               (snapshot <$> entries)),
       replicate (S (length entries)) 0).
Proof.
  induction entries as [| [key v] entries IH]; intros m Hlive.
  - cbn. rewrite take_nil, app_nil_r. by destruct m.
  - cbn [fmap list_fmap fst iterate_flush].
    pose proof (Hlive (key, v) ltac:(apply list_elem_of_here)) as Hhere.
    cbn [fst snd] in Hhere. rewrite Hhere.
    unfold flush_flows. rewrite reserve_iff_free.
    destruct (ringbuf_free events_size sizeof_flow_event (events m))
      as [| free] eqn:Hfree.
    + rewrite bool_decide_eq_false_2 by lia. cbn [negb fst snd Z.eqb].
      rewrite (IH m), Hfree; [done |].
      intros kv Hkv. apply Hlive. by apply list_elem_of_further.
    + rewrite bool_decide_eq_true_2 by lia. cbn [negb fst snd Z.eqb].
      rewrite IH.
      * cbn [events set_events]. rewrite ringbuf_free_submit, Hfree.
        cbn [pred take length replicate]. unfold bpf_ringbuf_submit.
        unfold set_events. cbn [flow_map events config].
        by rewrite <- app_assoc.
      * intros kv Hkv. cbn [flow_map set_events].
        apply Hlive. by apply list_elem_of_further.
Qed.

(** C8: a walk of the iterator over the flow table runs [flush_flows] on
    every entry and once more at the end; every run returns 0, so the walk
    is never cut short; the flow table and the configuration are the same
    afterwards; and the ring buffer has received, in visiting order, the
    snapshots of the entries visited while it had room, the others being
    dropped. *)
Theorem flush_walk_read_only (m : maps) :
  (forall m0 ctx, snd (flush_flows m0 ctx) = 0 /\
                  flow_map (fst (flush_flows m0 ctx)) = flow_map m0) /\
  flow_map (fst (flush_walk m)) = flow_map m /\
  config (fst (flush_walk m)) = config m /\
  snd (flush_walk m) = replicate (S (size (flow_map m))) 0 /\
  events (fst (flush_walk m))
  = events m
    ++ take (ringbuf_free events_size sizeof_flow_event (events m))
         (snapshot <$> map_to_list (flow_map m)).
Proof.
  split; [intros m0 ctx; split; apply flush_flows_ret |].
  unfold flush_walk. rewrite iterate_flush_spec.
  - cbn [fst snd flow_map config events set_events].
    by rewrite length_map_to_list.
  - intros [key v] Hkv. by apply elem_of_map_to_list in Hkv.
Qed.

End flush_walker.

(** ** Concurrent first-sight upserts *)

Section race.
Import flow_tracker.

(** One CPU running alone goes through [cpu_step] to the flow table that
    [track_egress] computes. *)
Lemma cpu_alone_is_track_egress (bo : byte_order) (m : maps) (k : kernel)
    (skb : sk_buff) (t : l4_tuple) :
  parse_l4 bo skb = Headers t ->
  let r := run_schedule [0; 0; 0; 0]%nat (flow_map m)
             (first_sight 1 (egress_flow_key t) k skb) in
  fst r = flow_map (fst (track_egress bo m k skb)) /\
  forallb has_returned (snd r) = true.
Proof.
  intros Hp. unfold track_egress. rewrite Hp. cbn zeta.
  unfold first_sight, replicate.
  cbn [run_schedule lookup list_lookup cpu_step cpu_pc cpu_key cpu_kernel
       cpu_skb].
  destruct (flow_map m !! egress_flow_key t) as [old |] eqn:Hold;
    cbn [fst snd insert list_insert run_schedule lookup list_lookup cpu_step
         at_pc cpu_pc cpu_key cpu_kernel cpu_skb flow_map set_flow_map];
    split; reflexivity.
Qed.

Lemma run_schedule_app (s1 s2 : list nat)
    (fm : gmap flow_key flow_metrics) (cpus : list cpu) :
  run_schedule (s1 ++ s2) fm cpus
  = run_schedule s2 (fst (run_schedule s1 fm cpus))
      (snd (run_schedule s1 fm cpus)).
Proof.
  revert fm cpus. induction s1 as [| i s1 IH]; intros fm cpus; [done |].
  cbn [app run_schedule]. destruct (cpus !! i); apply IH.
Qed.

(** CPUs [a .. a + b - 1] take one step each, in index order, when that
    step turns [c] into [c'] and leaves the table [fm] as it is. *)
Lemma run_schedule_round (fm : gmap flow_key flow_metrics) (c c' : cpu) :
  cpu_step fm c = (fm, c') ->
  forall b a : nat,
    run_schedule (seq a b) fm (replicate a c' ++ replicate b c)
    = (fm, replicate (a + b) c').
Proof.
  intros Hstep. induction b as [| b IH]; intros a.
  - cbn. by rewrite app_nil_r, Nat.add_0_r.
  - cbn [seq run_schedule replicate].
    rewrite lookup_app_r, length_replicate, Nat.sub_diag
      by (rewrite length_replicate; lia).
    cbn [lookup list_lookup]. rewrite Hstep. cbn [fst snd].
    rewrite insert_app_r_alt, length_replicate, Nat.sub_diag
      by (rewrite length_replicate; lia).
    cbn [insert list_insert].
    replace (replicate a c' ++ c' :: replicate b c)
      with (replicate (S a) c' ++ replicate b c)
      by (rewrite (replicate_S_end a), <- app_assoc; done).
    rewrite IH. f_equal. f_equal. lia.
Qed.

(** For any number of CPUs, the schedule in which all of them look the new
    key up before any of them inserts ends with one entry that counts one
    packet. *)
Lemma lookups_before_inserts (n : nat) (key : flow_key) (k : kernel)
    (skb : sk_buff) :
  let new := new_flow_metrics k skb (ktime_get_ns k) in
  let r := run_schedule (seq 0 (S n) ++ seq 0 (S n)) ∅
             (first_sight (S n) key k skb) in
  fst r = {[ key := new ]} /\
  forallb has_returned (snd r) = true /\
  packets_sent new = 1.
Proof.
  cbn zeta. unfold first_sight.
  set (c0 := {| cpu_pc := AtLookup; cpu_key := key; cpu_kernel := k;
                cpu_skb := skb |}).
  set (new := new_flow_metrics k skb (ktime_get_ns k)).
  rewrite run_schedule_app.
  (* every CPU finds no entry *)
  assert (Hlookup : cpu_step ∅ c0 = (∅, at_pc c0 AtInsert)).
  { unfold cpu_step. cbn [cpu_pc c0 cpu_key]. by rewrite lookup_empty. }
  pose proof (run_schedule_round ∅ c0 (at_pc c0 AtInsert) Hlookup (S n) 0)
    as Hround0.
  cbn [replicate app Nat.add] in Hround0. cbn [replicate].
  rewrite Hround0. cbn [fst snd].
  (* the first insert creates the entry *)
  cbn [seq run_schedule lookup list_lookup].
  assert (Hfirst : cpu_step ∅ (at_pc c0 AtInsert)
                   = ({[ key := new ]}, at_pc c0 (Returned 1))).
  { unfold cpu_step, bpf_hash_update. cbn [cpu_pc at_pc cpu_key cpu_kernel
      cpu_skb]. rewrite lookup_empty, map_size_empty. cbn [fst]. done. }
  rewrite Hfirst. cbn [fst snd insert list_insert].
  (* the others overwrite it with an entry of their own *)
  assert (Hnext : cpu_step {[ key := new ]} (at_pc c0 AtInsert)
                  = ({[ key := new ]}, at_pc c0 (Returned 1))).
  { unfold cpu_step, bpf_hash_update. cbn [cpu_pc at_pc cpu_key cpu_kernel
      cpu_skb]. rewrite lookup_singleton_eq. cbn [fst].
    by rewrite insert_singleton_eq. }
  pose proof (run_schedule_round {[ key := new ]} (at_pc c0 AtInsert)
                (at_pc c0 (Returned 1)) Hnext n 1) as Hround.
  cbn [replicate app] in Hround.
  change (at_pc (at_pc c0 AtInsert) (Returned 1))
    with (at_pc c0 (Returned 1)).
  rewrite Hround. cbn [fst snd].
  split; [done |]. split; [| done].
  apply forallb_forall. intros c Hc.
  apply list_elem_of_In, elem_of_replicate in Hc as [-> _]. done.
Qed.

(** C2 fails on two CPUs: when both look the new key up before either
    inserts, each inserts an entry counting its own packet only, the second
    insert overwrites the first, and the surviving entry has [packets_sent]
    1 and [bytes_sent] 100 after two packets of 100 bytes. *)
Theorem concurrent_first_sight_loses_update :
  let r := run_schedule [0; 1; 0; 1]%nat ∅
             (first_sight 2 example_key some_task outbound_external) in
  forallb has_returned (snd r) = true /\
  size (fst r) = 1%nat /\
  exists new, fst r !! example_key = Some new /\
              packets_sent new = 1 /\ bytes_sent new = 100.
Proof.
  cbn zeta. split; [vm_compute; reflexivity |].
  split; [vm_compute; reflexivity |].
  exists (new_flow_metrics some_task outbound_external 1000).
  split; [vm_compute; reflexivity |]. split; reflexivity.
Qed.

(** The same two CPUs one after the other count both packets. *)
Example sequential_first_sight_counts_both :
  let r := run_schedule [0; 0; 1; 1; 1; 1]%nat ∅
             (first_sight 2 example_key some_task outbound_external) in
  forallb has_returned (snd r) = true /\
  (packets_sent <$> fst r !! example_key) = Some 2 /\
  (bytes_sent <$> fst r !! example_key) = Some 200.
Proof. cbn zeta. repeat split; vm_compute; reflexivity. Qed.

End race.

(** ** Header parsing against the wire format *)

(** Case analysis on the integer comparisons of the goal. *)
Ltac compare_cases :=
  repeat match goal with
         | |- context [Z.ltb ?a ?b] => destruct (Z.ltb_spec a b)
         | |- context [Z.leb ?a ?b] => destruct (Z.leb_spec a b)
         | |- context [Z.eqb ?a ?b] => destruct (Z.eqb_spec a b)
         end;
  cbn [negb andb orb]; try reflexivity; try lia.

Section wire_format.

Lemma u8_range (b : byte) : 0 <= u8 b < 2 ^ 8.
Proof.
  unfold u8. pose proof (Byte.to_N_bounded b). lia.
Qed.

Lemma load8_range (data : list byte) (off : Z) : 0 <= load8 data off < 2 ^ 8.
Proof. apply u8_range. Qed.

(** Disjoint bit ranges: [lor] is addition. *)
Lemma lor_shiftl_add (lo hi n : Z) :
  0 <= n -> 0 <= lo < 2 ^ n -> 0 <= hi ->
  Z.lor lo (Z.shiftl hi n) = lo + hi * 2 ^ n.
Proof.
  intros Hn [Hlo0 Hlo] Hhi.
  assert (Hdisj : Z.land lo (Z.shiftl hi n) = 0).
  { apply Z.bits_inj'. intros i Hi. rewrite Z.land_spec, Z.bits_0.
    destruct (Z.lt_ge_cases i n) as [Hlt | Hge].
    - rewrite Z.shiftl_spec_low by lia. apply andb_false_r.
    - destruct (Z.eq_dec lo 0) as [-> | Hne]; [by rewrite Z.bits_0 |].
      rewrite Z.bits_above_log2; [done | lia |].
      apply Z.log2_lt_pow2; [lia |].
      eapply Z.lt_le_trans; [exact Hlo |].
      apply Z.pow_le_mono_r; lia. }
  pose proof (Z.add_lor_land lo (Z.shiftl hi n)) as Hadd.
  rewrite Hdisj, Z.shiftl_mul_pow2 in Hadd by lia.
  rewrite Z.shiftl_mul_pow2 by lia. lia.
Qed.

Lemma wire16_range (data : list byte) (off : Z) :
  0 <= wire16 data off < 2 ^ 16.
Proof.
  unfold wire16.
  pose proof (load8_range data off). pose proof (load8_range data (off + 1)).
  lia.
Qed.

Lemma load16_little (data : list byte) (off : Z) :
  load16 LittleEndian data off
  = load8 data off + load8 data (off + 1) * 2 ^ 8.
Proof.
  unfold load16.
  pose proof (load8_range data off). pose proof (load8_range data (off + 1)).
  apply lor_shiftl_add; lia.
Qed.

Lemma load16_big (data : list byte) (off : Z) :
  load16 BigEndian data off = wire16 data off.
Proof.
  unfold load16, wire16.
  pose proof (load8_range data off). pose proof (load8_range data (off + 1)).
  rewrite Z.lor_comm, lor_shiftl_add by lia. lia.
Qed.

Lemma bswap16_spec (a b : Z) :
  0 <= a < 2 ^ 8 -> 0 <= b < 2 ^ 8 ->
  bswap16 (a + b * 2 ^ 8) = a * 2 ^ 8 + b.
Proof.
  intros Ha Hb. unfold bswap16.
  change 0xFF with (Z.ones 8).
  rewrite !Z.land_ones, Z.shiftr_div_pow2 by lia.
  rewrite Z.lor_comm, lor_shiftl_add.
  - change (2 ^ 8) with 256 in *.
    Z.div_mod_to_equations. lia.
  - lia.
  - change (2 ^ 8) with 256 in *. Z.div_mod_to_equations. lia.
  - change (2 ^ 8) with 256 in *. Z.div_mod_to_equations. lia.
Qed.

(** [bpf_ntohs] of a loaded 16-bit field is its wire value on either
    target. *)
Lemma ntohs_load16 (bo : byte_order) (data : list byte) (off : Z) :
  bpf_ntohs bo (load16 bo data off) = wire16 data off.
Proof.
  destruct bo; cbn [bpf_ntohs]; [| apply load16_big].
  rewrite load16_little, bswap16_spec by apply load8_range. reflexivity.
Qed.

(** The two ways the programs test for IPv4 agree with the wire value. *)
Lemma h_proto_test_htons (bo : byte_order) (data : list byte) :
  (eth_h_proto bo data =? bpf_htons bo ETH_P_IP) = (wire16 data 12 =? 0x0800).
Proof.
  unfold eth_h_proto. destruct bo; cbn [bpf_htons].
  - rewrite load16_little. unfold wire16.
    pose proof (load8_range data 12). pose proof (load8_range data (12 + 1)).
    change (bswap16 ETH_P_IP) with 8.
    destruct (Z.eqb_spec (load8 data 12 + load8 data (12 + 1) * 2 ^ 8) 8);
      destruct (Z.eqb_spec (load8 data 12 * 2 ^ 8 + load8 data (12 + 1))
                  0x0800); try reflexivity; lia.
  - by rewrite load16_big.
Qed.

Lemma h_proto_test_ntohs (bo : byte_order) (data : list byte) :
  (bpf_ntohs bo (eth_h_proto bo data) =? ETH_P_IP)
  = (wire16 data 12 =? 0x0800).
Proof. unfold eth_h_proto. by rewrite ntohs_load16. Qed.

Lemma bswap32_spec (a b c d : Z) :
  0 <= a < 2 ^ 8 -> 0 <= b < 2 ^ 8 -> 0 <= c < 2 ^ 8 -> 0 <= d < 2 ^ 8 ->
  bswap32 (a + b * 2 ^ 8 + c * 2 ^ 16 + d * 2 ^ 24)
  = a * 2 ^ 24 + b * 2 ^ 16 + c * 2 ^ 8 + d.
Proof.
  intros Ha Hb Hc Hd. unfold bswap32.
  set (x := a + b * 2 ^ 8 + c * 2 ^ 16 + d * 2 ^ 24).
  change 0xFF with (Z.ones 8).
  rewrite !Z.land_ones, !Z.shiftr_div_pow2 by lia.
  assert (H0 : x mod 2 ^ 8 = a).
  { subst x. change (2 ^ 8) with 256 in *. change (2 ^ 16) with 65536.
    change (2 ^ 24) with 16777216. Z.div_mod_to_equations. lia. }
  assert (H1 : (x / 2 ^ 8) mod 2 ^ 8 = b).
  { subst x. change (2 ^ 8) with 256 in *. change (2 ^ 16) with 65536.
    change (2 ^ 24) with 16777216. Z.div_mod_to_equations. lia. }
  assert (H2 : (x / 2 ^ 16) mod 2 ^ 8 = c).
  { subst x. change (2 ^ 8) with 256 in *. change (2 ^ 16) with 65536.
    change (2 ^ 24) with 16777216. Z.div_mod_to_equations. lia. }
  assert (H3 : (x / 2 ^ 24) mod 2 ^ 8 = d).
  { subst x. change (2 ^ 8) with 256 in *. change (2 ^ 16) with 65536.
    change (2 ^ 24) with 16777216. Z.div_mod_to_equations. lia. }
  rewrite H0, H1, H2, H3.
  rewrite (Z.lor_comm (Z.shiftl c 8)), (lor_shiftl_add d c 8) by lia.
  rewrite (Z.lor_comm (Z.shiftl b 16)), (lor_shiftl_add _ b 16) by lia.
  rewrite (Z.lor_comm (Z.shiftl a 24)), (lor_shiftl_add _ a 24) by lia.
  lia.
Qed.

Lemma load32_little (data : list byte) (off : Z) :
  load32 LittleEndian data off
  = load8 data off + load8 data (off + 1) * 2 ^ 8
    + load8 data (off + 2) * 2 ^ 16 + load8 data (off + 2 + 1) * 2 ^ 24.
Proof.
  unfold load32. rewrite !load16_little.
  pose proof (load8_range data off). pose proof (load8_range data (off + 1)).
  pose proof (load8_range data (off + 2)).
  pose proof (load8_range data (off + 2 + 1)).
  rewrite lor_shiftl_add by lia. lia.
Qed.

Lemma load32_big (data : list byte) (off : Z) :
  load32 BigEndian data off = wire32 data off.
Proof.
  unfold load32, wire32. rewrite !load16_big.
  pose proof (wire16_range data off). pose proof (wire16_range data (off + 2)).
  rewrite Z.lor_comm, lor_shiftl_add by lia. lia.
Qed.

(** [bpf_ntohl] of a loaded address is its wire value on either target. *)
Lemma ntohl_load32 (bo : byte_order) (data : list byte) (off : Z) :
  bpf_ntohl bo (load32 bo data off) = wire32 data off.
Proof.
  destruct bo; cbn [bpf_ntohl]; [| apply load32_big].
  rewrite load32_little, bswap32_spec by apply load8_range.
  unfold wire32, wire16. lia.
Qed.

Lemma wire32_range (data : list byte) (off : Z) :
  0 <= wire32 data off < 2 ^ 32.
Proof.
  unfold wire32.
  pose proof (wire16_range data off). pose proof (wire16_range data (off + 2)).
  lia.
Qed.

Lemma load32_range (bo : byte_order) (data : list byte) (off : Z) :
  0 <= load32 bo data off < 2 ^ 32.
Proof.
  destruct bo.
  - rewrite load32_little.
    pose proof (load8_range data off). pose proof (load8_range data (off + 1)).
    pose proof (load8_range data (off + 2)).
    pose proof (load8_range data (off + 2 + 1)). lia.
  - rewrite load32_big. apply wire32_range.
Qed.

Lemma ip_ihl_mod (data : list byte) (ip : Z) :
  ip_ihl data ip = load8 data ip mod 16.
Proof.
  unfold ip_ihl. change 0xF with (Z.ones 4). by rewrite Z.land_ones.
Qed.

Lemma parse_l4_wire_format_eq (bo : byte_order) (skb : sk_buff) :
  flow_tracker.parse_l4 bo skb
  = if is_ipv4_l4 (skb_data skb)
    then flow_tracker.Headers
           {| flow_tracker.saddr := ip_saddr bo (skb_data skb) 14;
              flow_tracker.daddr := ip_daddr bo (skb_data skb) 14;
              flow_tracker.source :=
                wire16 (skb_data skb) (l4_offset (skb_data skb));
              flow_tracker.dest :=
                wire16 (skb_data skb) (l4_offset (skb_data skb) + 2);
              flow_tracker.ip_proto := load8 (skb_data skb) 23 |}
    else flow_tracker.Exit 1.
Proof.
  unfold flow_tracker.parse_l4, is_ipv4_l4. cbn zeta.
  change (0 + sizeof_ethhdr) with 14.
  rewrite h_proto_test_ntohs.
  unfold l4_source, l4_dest. rewrite !ntohs_load16, !ip_ihl_mod.
  unfold out_of_bounds, ip_protocol, l4_offset, IPPROTO_TCP, IPPROTO_UDP,
    sizeof_ethhdr, sizeof_iphdr, sizeof_tcphdr, sizeof_udphdr.
  change (14 + 9) with 23.
  compare_cases.
Qed.

(** X1: The header parsing of the two cgroup hooks accepts exactly the IPv4
    TCP and UDP frames whose headers lie within the packet data, and hands
    on the protocol byte, the two ports as the wire has them, and the two
    addresses as loaded, whose host-order values are the wire values; the
    byte order of the target plays no part in what is accepted nor in the
    ports.  The transport header is taken at [l4_offset] whatever the
    header-length nibble is. *)
Theorem parse_l4_wire_format (bo : byte_order) (skb : sk_buff) :
  let data := skb_data skb in
  flow_tracker.parse_l4 bo skb
  = (if is_ipv4_l4 data
     then flow_tracker.Headers
            {| flow_tracker.saddr := ip_saddr bo data 14;
               flow_tracker.daddr := ip_daddr bo data 14;
               flow_tracker.source := wire16 data (l4_offset data);
               flow_tracker.dest := wire16 data (l4_offset data + 2);
               flow_tracker.ip_proto := load8 data 23 |}
     else flow_tracker.Exit 1) /\
  bpf_ntohl bo (ip_saddr bo data 14) = wire32 data 26 /\
  bpf_ntohl bo (ip_daddr bo data 14) = wire32 data 30.
Proof.
  cbn zeta. split; [| split; apply ntohl_load32].
  apply parse_l4_wire_format_eq.
Qed.

End wire_format.

(** ** What the egress monitor records *)

Section egress_records.
Import egress_monitor.

(** [monitor_egress] as one decision on the wire format and the
    classifier. *)
Lemma monitor_egress_wire (bo : byte_order) (m : maps) (now : Z)
    (skb : sk_buff) :
  monitor_egress bo m now skb
  = if is_egress bo m skb
    then monitor_egress_record bo m now skb 14
           (wire16 (skb_data skb) (l4_offset (skb_data skb)))
           (wire16 (skb_data skb) (l4_offset (skb_data skb) + 2))
    else (m, TC_ACT_OK).
Proof.
  unfold monitor_egress, is_egress, is_ipv4_l4. cbn zeta.
  change (0 + sizeof_ethhdr) with 14.
  rewrite h_proto_test_htons.
  unfold l4_source, l4_dest. rewrite !ntohs_load16, !ip_ihl_mod.
  unfold out_of_bounds, ip_protocol, l4_offset, IPPROTO_TCP, IPPROTO_UDP,
    sizeof_ethhdr, sizeof_iphdr, sizeof_tcphdr, sizeof_udphdr.
  change (14 + 9) with 23.
  destruct (dst_is_internal bo m (ip_daddr bo (skb_data skb) 14));
    compare_cases.
Qed.

Lemma monitor_egress_record_maps (bo : byte_order) (m : maps) (now : Z)
    (skb : sk_buff) (sp dp : Z) :
  let dst := ip_daddr bo (skb_data skb) 14 in
  let m' := fst (monitor_egress_record bo m now skb 14 sp dp) in
  cluster_cidrs m' = cluster_cidrs m /\
  cidr_count m' = cidr_count m /\
  egress_bytes m'
  = match egress_bytes m !! dst with
    | Some _ => alter (fun total => add64 total (skb_len skb)) dst
                  (egress_bytes m)
    | None =>
        if Z.of_nat (size (egress_bytes m)) <? MAX_ENTRIES
        then <[dst := skb_len skb]> (egress_bytes m)
        else egress_bytes m
    end /\
  egress_events m'
  = egress_events m
    ++ (if bpf_ringbuf_reserve egress_events_size sizeof_egress_event
             (egress_events m)
        then [ {| src_ip := ip_saddr bo (skb_data skb) 14;
                  dst_ip := ip_daddr bo (skb_data skb) 14;
                  src_port := sp; dst_port := dp;
                  protocol := load8 (skb_data skb) 23;
                  bytes := skb_len skb; timestamp_ns := now; pid := 0 |} ]
        else []).
Proof.
  cbn zeta. unfold monitor_egress_record. cbn zeta. cbn [egress_events].
  assert (Hbytes :
    match egress_bytes m !! ip_daddr bo (skb_data skb) 14 with
    | Some _ => alter (fun total => add64 total (skb_len skb))
                  (ip_daddr bo (skb_data skb) 14) (egress_bytes m)
    | None => fst (bpf_hash_update MAX_ENTRIES (egress_bytes m)
                     (ip_daddr bo (skb_data skb) 14) (skb_len skb))
    end
    = match egress_bytes m !! ip_daddr bo (skb_data skb) 14 with
      | Some _ => alter (fun total => add64 total (skb_len skb))
                    (ip_daddr bo (skb_data skb) 14) (egress_bytes m)
      | None =>
          if Z.of_nat (size (egress_bytes m)) <? MAX_ENTRIES
          then <[ip_daddr bo (skb_data skb) 14 := skb_len skb]>
                 (egress_bytes m)
          else egress_bytes m
      end).
  { unfold bpf_hash_update.
    destruct (egress_bytes m !! ip_daddr bo (skb_data skb) 14); [done |].
    by destruct (Z.of_nat (size (egress_bytes m)) <? MAX_ENTRIES). }
  destruct (bpf_ringbuf_reserve egress_events_size sizeof_egress_event
              (egress_events m));
    cbn [negb fst cluster_cidrs cidr_count egress_bytes egress_events];
    rewrite Hbytes, ?app_nil_r; done.
Qed.

(** What one run does to the total of an arbitrary destination. *)
Lemma monitor_egress_lookup (bo : byte_order) (m : maps) (now : Z)
    (skb : sk_buff) (dst : Z) :
  egress_bytes (fst (monitor_egress bo m now skb)) !! dst
  = match egress_len bo m dst (now, skb) with
    | Some len =>
        match egress_bytes m !! dst with
        | Some total => Some (add64 total len)
        | None =>
            if Z.of_nat (size (egress_bytes m)) <? MAX_ENTRIES
            then Some len else None
        end
    | None => egress_bytes m !! dst
    end.
Proof.
  rewrite monitor_egress_wire. unfold egress_len. cbn [fst snd].
  destruct (is_egress bo m skb); [| done]. cbn [andb].
  destruct (monitor_egress_record_maps bo m now skb
              (wire16 (skb_data skb) (l4_offset (skb_data skb)))
              (wire16 (skb_data skb) (l4_offset (skb_data skb) + 2)))
    as (_ & _ & -> & _).
  destruct (Z.eqb_spec (ip_daddr bo (skb_data skb) 14) dst) as [<- | Hne].
  - destruct (egress_bytes m !! ip_daddr bo (skb_data skb) 14) as [total |]
      eqn:Hold.
    + by rewrite lookup_alter_eq, Hold.
    + destruct (Z.of_nat (size (egress_bytes m)) <? MAX_ENTRIES);
        [by rewrite lookup_insert_eq | done].
  - destruct (egress_bytes m !! ip_daddr bo (skb_data skb) 14) as [total |].
    + by rewrite lookup_alter_ne.
    + destruct (Z.of_nat (size (egress_bytes m)) <? MAX_ENTRIES);
        [by rewrite lookup_insert_ne | done].
Qed.

Lemma monitor_egress_config (bo : byte_order) (m : maps) (now : Z)
    (skb : sk_buff) :
  cluster_cidrs (fst (monitor_egress bo m now skb)) = cluster_cidrs m /\
  cidr_count (fst (monitor_egress bo m now skb)) = cidr_count m.
Proof.
  rewrite monitor_egress_wire. destruct (is_egress bo m skb); [| done].
  destruct (monitor_egress_record_maps bo m now skb
              (wire16 (skb_data skb) (l4_offset (skb_data skb)))
              (wire16 (skb_data skb) (l4_offset (skb_data skb) + 2)))
    as (? & ? & _). done.
Qed.

(** X10: A frame that is not IPv4 TCP or UDP with its headers inside the packet
    data, or whose destination is private or configured, leaves all four
    maps of the monitor as they were. *)
Theorem monitor_egress_ignores_other_frames (bo : byte_order) (m : maps)
    (now : Z) (skb : sk_buff) :
  is_egress bo m skb = false ->
  monitor_egress bo m now skb = (m, TC_ACT_OK).
Proof. intros Hno. by rewrite monitor_egress_wire, Hno. Qed.

Lemma monitor_egress_ignores_other_frames_witness :
  is_egress LittleEndian no_egress {| skb_data := []; skb_len := 0 |} = false /\
  monitor_egress LittleEndian no_egress 7 {| skb_data := []; skb_len := 0 |}
  = (no_egress, TC_ACT_OK).
Proof.
  split; [reflexivity |].
  apply (monitor_egress_ignores_other_frames LittleEndian no_egress 7
           {| skb_data := []; skb_len := 0 |}).
  reflexivity.
Defined.

(** X11: For a frame it reports, [monitor_egress] adds the packet length to the
    total of the destination (64-bit addition), or starts that total at the
    packet length if the aggregator has room for a new destination, and
    touches no other total; independently of that, it queues one record
    carrying the loaded addresses, the wire ports, the protocol, the length
    and the clock value if the ring buffer has room, and none otherwise.
    So a dropped record still counts in the total, and a destination the
    full aggregator cannot take is still reported. *)
Theorem monitor_egress_effect (bo : byte_order) (m : maps) (now : Z)
    (skb : sk_buff) :
  is_egress bo m skb = true ->
  let dst := ip_daddr bo (skb_data skb) 14 in
  let m' := fst (monitor_egress bo m now skb) in
  egress_bytes m' !! dst
  = match egress_bytes m !! dst with
    | Some total => Some (add64 total (skb_len skb))
    | None =>
        if Z.of_nat (size (egress_bytes m)) <? MAX_ENTRIES
        then Some (skb_len skb) else None
    end /\
  (forall d, d <> dst -> egress_bytes m' !! d = egress_bytes m !! d) /\
  egress_events m'
  = egress_events m
    ++ (if bpf_ringbuf_reserve egress_events_size sizeof_egress_event
             (egress_events m)
        then [egress_event_of bo now skb] else []).
Proof.
  intros Hyes. cbn zeta. split; [| split].
  - rewrite monitor_egress_lookup. unfold egress_len. cbn [fst snd].
    by rewrite Hyes, Z.eqb_refl.
  - intros d Hd. rewrite monitor_egress_lookup. unfold egress_len.
    cbn [fst snd]. rewrite Hyes. cbn [andb].
    by destruct (Z.eqb_spec (ip_daddr bo (skb_data skb) 14) d).
  - rewrite monitor_egress_wire, Hyes.
    by destruct (monitor_egress_record_maps bo m now skb
                   (wire16 (skb_data skb) (l4_offset (skb_data skb)))
                   (wire16 (skb_data skb) (l4_offset (skb_data skb) + 2)))
      as (_ & _ & _ & ->).
Qed.

Lemma monitor_egress_effect_witness :
  is_egress LittleEndian no_egress outbound_external = true /\
  egress_bytes (fst (monitor_egress LittleEndian no_egress 1000
                       outbound_external)) !! 0x22D8B85D
  = Some 100.
Proof.
  split; [reflexivity |].
  destruct (monitor_egress_effect LittleEndian no_egress 1000
              outbound_external eq_refl) as [Hdst _].
  exact Hdst.
Defined.

Lemma dst_is_internal_config (bo : byte_order) (m m' : maps) (ip : Z) :
  cluster_cidrs m' = cluster_cidrs m -> cidr_count m' = cidr_count m ->
  dst_is_internal bo m' ip = dst_is_internal bo m ip.
Proof.
  intros Hc Hn.
  unfold dst_is_internal, is_internal_ip, is_internal_ip_run.
  by rewrite Hc, Hn.
Qed.

Lemma egress_len_config (bo : byte_order) (m m' : maps) (dst : Z)
    (c : Z * sk_buff) :
  cluster_cidrs m' = cluster_cidrs m -> cidr_count m' = cidr_count m ->
  egress_len bo m' dst c = egress_len bo m dst c.
Proof.
  intros Hc Hn. unfold egress_len, is_egress.
  by rewrite (dst_is_internal_config bo m m' _ Hc Hn).
Qed.

Lemma run_monitor_cons (bo : byte_order) (m : maps) (c : Z * sk_buff)
    (cs : list (Z * sk_buff)) :
  run_monitor bo m (c :: cs)
  = run_monitor bo (fst (monitor_egress bo m (fst c) (snd c))) cs.
Proof. reflexivity. Qed.

Lemma run_monitor_total (bo : byte_order) (m0 : maps) (dst : Z)
    (cs : list (Z * sk_buff)) :
  forall (m : maps) (total : Z),
    cluster_cidrs m = cluster_cidrs m0 -> cidr_count m = cidr_count m0 ->
    egress_bytes m !! dst = Some total -> 0 <= total < 2 ^ 64 ->
    egress_bytes (run_monitor bo m cs) !! dst
    = Some ((total + sum_Z (omap (egress_len bo m0 dst) cs)) mod 2 ^ 64).
Proof.
  induction cs as [| [now skb] cs IH]; intros m total Hc Hn Hold Hrange.
  - cbn. rewrite Hold, Z.add_0_r, Z.mod_small by lia. done.
  - rewrite run_monitor_cons. cbn [fst snd].
    destruct (monitor_egress_config bo m now skb) as [Hc' Hn'].
    pose proof (monitor_egress_lookup bo m now skb dst) as Hstep.
    rewrite Hold, (egress_len_config bo m0 m dst (now, skb) Hc Hn) in Hstep.
    cbn [omap list_omap].
    destruct (egress_len bo m0 dst (now, skb)) as [len |].
    + rewrite (IH _ (add64 total len)); try congruence.
      * unfold sum_Z, add64. cbn [foldr].
        by rewrite Zplus_mod_idemp_l, Z.add_assoc.
      * unfold add64. apply Z.mod_pos_bound. lia.
    + by rewrite (IH _ total); try congruence.
Qed.

(** X12: The total of a destination that has one is, after any run of frames,
    its earlier value plus the lengths of the frames reported for that
    destination, modulo 2^64, whether their records were queued or
    dropped. *)
Theorem aggregator_total (bo : byte_order) (m : maps) (dst total : Z)
    (cs : list (Z * sk_buff)) :
  egress_bytes m !! dst = Some total -> 0 <= total < 2 ^ 64 ->
  egress_bytes (run_monitor bo m cs) !! dst
  = Some ((total + sum_Z (omap (egress_len bo m dst) cs)) mod 2 ^ 64).
Proof. intros Hold Hrange. by apply run_monitor_total. Qed.

Lemma aggregator_total_witness :
  egress_bytes
    (fst (monitor_egress LittleEndian no_egress 1 outbound_external))
    !! 0x22D8B85D = Some 100 /\
  0 <= 100 < 2 ^ 64 /\
  egress_bytes
    (run_monitor LittleEndian
       (fst (monitor_egress LittleEndian no_egress 1 outbound_external))
       [(2, outbound_external); (3, outbound_internal);
        (4, outbound_external)]) !! 0x22D8B85D
  = Some 300.
Proof.
  split; [reflexivity |]. split; [lia |].
  rewrite (aggregator_total LittleEndian _ 0x22D8B85D 100); [| reflexivity | lia].
  reflexivity.
Defined.

Lemma monitor_egress_step_monotone (bo : byte_order) (m : maps) (now : Z)
    (skb : sk_buff) :
  let m' := fst (monitor_egress bo m now skb) in
  egress_events m `prefix_of` egress_events m' /\
  dom (egress_bytes m) ⊆ dom (egress_bytes m') /\
  (size (egress_bytes m') <= Nat.max (size (egress_bytes m))
                               (Z.to_nat MAX_ENTRIES))%nat.
Proof.
  cbn zeta. rewrite monitor_egress_wire.
  destruct (is_egress bo m skb);
    [| cbn [fst]; split; [done | split; [done | lia]]].
  destruct (monitor_egress_record_maps bo m now skb
              (wire16 (skb_data skb) (l4_offset (skb_data skb)))
              (wire16 (skb_data skb) (l4_offset (skb_data skb) + 2)))
    as (_ & _ & -> & ->).
  split; [by apply prefix_app_r |].
  destruct (egress_bytes m !! ip_daddr bo (skb_data skb) 14) eqn:Hold.
  - rewrite dom_alter_L. split; [done |].
    rewrite <- !size_dom, dom_alter_L. lia.
  - destruct (Z.ltb_spec (Z.of_nat (size (egress_bytes m))) MAX_ENTRIES).
    + rewrite dom_insert_L. split; [set_solver |].
      rewrite map_size_insert_None by done. lia.
    + split; [done | lia].
Qed.

(** X13: Whatever frames it is run on, the monitor leaves the configured ranges
    and their count as they were, removes no queued record, drops no
    destination from the aggregator, and does not let the aggregator grow
    beyond [MAX_ENTRIES] destinations. *)
Theorem monitor_egress_never_forgets (bo : byte_order) (m : maps)
    (cs : list (Z * sk_buff)) :
  cluster_cidrs (run_monitor bo m cs) = cluster_cidrs m /\
  cidr_count (run_monitor bo m cs) = cidr_count m /\
  egress_events m `prefix_of` egress_events (run_monitor bo m cs) /\
  dom (egress_bytes m) ⊆ dom (egress_bytes (run_monitor bo m cs)) /\
  (size (egress_bytes (run_monitor bo m cs))
   <= Nat.max (size (egress_bytes m)) (Z.to_nat MAX_ENTRIES))%nat.
Proof.
  revert m. induction cs as [| [now skb] cs IH]; intros m.
  - cbn. repeat split; try done. lia.
  - rewrite run_monitor_cons. cbn [fst snd].
    destruct (IH (fst (monitor_egress bo m now skb)))
      as (Hc & Hn & Hev & Hdom & Hsize).
    destruct (monitor_egress_config bo m now skb) as [Hc' Hn'].
    destruct (monitor_egress_step_monotone bo m now skb)
      as (Hev' & Hdom' & Hsize').
    split; [congruence |]. split; [congruence |].
    split; [by etrans |]. split; [by etrans |]. lia.
Qed.

(** X14: A configured entry whose mask is 0, such as a slot of the array that
    was never filled in but lies below the configured count and below 16,
    matches every address: every destination is then Internal and the
    monitor records nothing at all. *)
Theorem zero_mask_entry_silences_monitor (m : maps) (i : Z) (c : cidr_range) :
  0 <= i < examined_count m ->
  cluster_cidrs m !! Z.to_nat i = Some c -> mask c = 0 ->
  forall (bo : byte_order) (ip now : Z) (skb : sk_buff),
    is_internal_ip m ip = true /\
    monitor_egress bo m now skb = (m, TC_ACT_OK).
Proof.
  intros Hi Hc Hmask.
  assert (Hint : forall ip, is_internal_ip m ip = true).
  { intros ip. pose proof (is_internal_ip_run_spec m ip) as Hrun.
    cbn zeta in Hrun. unfold is_internal_ip.
    destruct (fst (is_internal_ip_run m ip)); [done |].
    destruct Hrun as [Hnone _]. destruct (Hnone i Hi).
    split; [lia |]. exists c. split; [exact Hc |].
    unfold matches_cidr. by rewrite Hmask, !Z.land_0_r. }
  intros bo ip now skb. split; [apply Hint |].
  rewrite monitor_egress_wire. unfold is_egress, dst_is_internal.
  by rewrite Hint, orb_true_r, andb_false_r.
Qed.

Lemma zero_mask_entry_silences_monitor_witness :
  0 <= 0 < examined_count blank_cidr /\
  monitor_egress LittleEndian blank_cidr 1000 outbound_external
  = (blank_cidr, TC_ACT_OK).
Proof.
  split; [vm_compute; split; [discriminate | reflexivity] |].
  apply (zero_mask_entry_silences_monitor blank_cidr 0
           {| network := 0; mask := 0 |});
    [vm_compute; split; [discriminate | reflexivity]
    | reflexivity | reflexivity | exact 0 ].
Defined.

(** X15: The private-range test on an address loaded from packet memory decides
    by the address the wire carries: it holds exactly when that address lies
    in 10.0.0.0/8, 172.16.0.0/12, 192.168.0.0/16 or 127.0.0.0/8, on a
    little-endian and on a big-endian target alike. *)
Theorem is_private_ip_byte_order_free (bo : byte_order) (data : list byte)
    (off : Z) :
  is_private_ip bo (load32 bo data off) = true
  <-> private_range (wire32 data off).
Proof.
  rewrite (is_private_ip_spec bo _ (load32_range bo data off)).
  by rewrite ntohl_load32.
Qed.

End egress_records.

(** ** More on the flow table *)

Section flow_table_more.
Import flow_tracker.

(** X3: On a packet that parses to a tuple whose reversed key has an entry, the
    inbound hook adds the packet length to [bytes_received] and 1 to
    [packets_received] (64-bit additions), sets [last_seen_ns] to the clock
    value and leaves every other field of the entry alone; it queues no
    event and returns 1. *)
Theorem inbound_update_contract (bo : byte_order) (m : maps) (k : kernel)
    (skb : sk_buff) (t : l4_tuple) (old : flow_metrics) :
  parse_l4 bo skb = Headers t ->
  flow_map m !! ingress_flow_key t = Some old ->
  let r := track_ingress bo m k skb in
  flow_map (fst r) !! ingress_flow_key t
  = Some {| bytes_sent := bytes_sent old;
            bytes_received := add64 (bytes_received old) (skb_len skb);
            packets_sent := packets_sent old;
            packets_received := add64 (packets_received old) 1;
            start_time_ns := start_time_ns old;
            last_seen_ns := ktime_get_ns k;
            pid := pid old; uid := uid old; comm := comm old |} /\
  events (fst r) = events m /\ config (fst r) = config m /\ snd r = 1.
Proof.
  intros Hp Hold. cbn zeta.
  rewrite (track_ingress_parsed bo m k skb t Hp), Hold.
  cbn [fst snd flow_map events config set_flow_map].
  by rewrite lookup_alter_eq, Hold.
Qed.

Lemma inbound_update_contract_witness :
  parse_l4 LittleEndian inbound_reply = Headers reply_tuple /\
  flow_map one_flow !! ingress_flow_key reply_tuple
  = Some (new_flow_metrics some_task outbound_external 1000) /\
  flow_map (fst (track_ingress LittleEndian one_flow some_task inbound_reply))
    !! ingress_flow_key reply_tuple
  = Some {| bytes_sent := 100; bytes_received := 1500;
            packets_sent := 1; packets_received := 1;
            start_time_ns := 1000; last_seen_ns := 1000;
            pid := 42; uid := 500; comm := [] |}.
Proof.
  split; [reflexivity |]. split; [reflexivity |].
  apply (inbound_update_contract LittleEndian one_flow some_task
           inbound_reply reply_tuple
           (new_flow_metrics some_task outbound_external 1000));
    reflexivity.
Defined.

(** X4: A hook run on a packet changes the entry of no flow but the packet's
    own, queues no event and leaves the configuration map alone. *)
Theorem hooks_touch_only_their_flow (bo : byte_order) (m : maps) (k : kernel)
    (skb : sk_buff) (t : l4_tuple) (key : flow_key) :
  parse_l4 bo skb = Headers t ->
  (key <> egress_flow_key t ->
   flow_map (fst (track_egress bo m k skb)) !! key = flow_map m !! key) /\
  (key <> ingress_flow_key t ->
   flow_map (fst (track_ingress bo m k skb)) !! key = flow_map m !! key) /\
  events (fst (track_egress bo m k skb)) = events m /\
  events (fst (track_ingress bo m k skb)) = events m /\
  config (fst (track_egress bo m k skb)) = config m /\
  config (fst (track_ingress bo m k skb)) = config m.
Proof.
  intros Hp. split; [| split].
  - intros Hne. rewrite track_egress_lookup. unfold outbound_len.
    rewrite Hp. by rewrite decide_False.
  - intros Hne. rewrite track_ingress_lookup. unfold inbound_len.
    rewrite Hp. by rewrite decide_False.
  - rewrite (track_egress_parsed bo m k skb t Hp),
      (track_ingress_parsed bo m k skb t Hp).
    by destruct (flow_map m !! ingress_flow_key t).
Qed.

Lemma hooks_touch_only_their_flow_witness :
  parse_l4 LittleEndian outbound_internal = Headers internal_tuple /\
  flow_map (fst (track_egress LittleEndian one_flow some_task
                   outbound_internal)) !! example_key
  = flow_map one_flow !! example_key.
Proof.
  split; [reflexivity |].
  apply (hooks_touch_only_their_flow LittleEndian one_flow some_task
           outbound_internal internal_tuple example_key);
    [reflexivity | discriminate].
Defined.

(** X2: A frame that is not IPv4 TCP or UDP with its headers inside the packet
    data leaves the maps of the flow tracker as they were, under either
    hook. *)
Theorem tracker_ignores_other_frames (bo : byte_order) (m : maps)
    (k : kernel) (skb : sk_buff) :
  is_ipv4_l4 (skb_data skb) = false ->
  track_egress bo m k skb = (m, 1) /\ track_ingress bo m k skb = (m, 1).
Proof.
  intros Hno. unfold track_egress, track_ingress.
  by rewrite parse_l4_wire_format_eq, Hno.
Qed.

Lemma tracker_ignores_other_frames_witness :
  is_ipv4_l4 [] = false /\
  track_egress LittleEndian one_flow some_task
    {| skb_data := []; skb_len := 40 |} = (one_flow, 1).
Proof.
  split; [reflexivity |].
  apply (tracker_ignores_other_frames LittleEndian one_flow some_task
           {| skb_data := []; skb_len := 40 |}).
  reflexivity.
Defined.

Lemma flush_flows_events (m : maps)
    (ctx : option flow_key * option flow_metrics) :
  events m `prefix_of` events (fst (flush_flows m ctx)).
Proof.
  unfold flush_flows. repeat case_match; cbn [fst events set_events];
    try done.
  unfold bpf_ringbuf_submit. by apply prefix_app_r.
Qed.

Lemma run_hook_monotone (bo : byte_order) (m : maps) (c : hook_call) :
  let m' := run_hook bo m c in
  config m' = config m /\
  events m `prefix_of` events m' /\
  dom (flow_map m) ⊆ dom (flow_map m') /\
  (size (flow_map m') <= Nat.max (size (flow_map m)) (Z.to_nat MAX_ENTRIES))%nat.
Proof.
  cbn zeta. destruct c as [k skb | k skb | ctx]; cbn [run_hook].
  - destruct (parse_l4 bo skb) as [ret | t] eqn:Hp.
    + unfold track_egress. rewrite Hp. cbn [fst].
      repeat split; try done. lia.
    + rewrite (track_egress_parsed bo m k skb t Hp).
      cbn [fst flow_map events config set_flow_map].
      split; [done |]. split; [done |].
      destruct (flow_map m !! egress_flow_key t) eqn:Hold.
      * rewrite dom_alter_L. split; [done |].
        rewrite <- !size_dom, dom_alter_L. lia.
      * destruct (Z.ltb_spec (Z.of_nat (size (flow_map m))) MAX_ENTRIES).
        -- rewrite dom_insert_L. split; [set_solver |].
           rewrite map_size_insert_None by done. lia.
        -- split; [done | lia].
  - destruct (parse_l4 bo skb) as [ret | t] eqn:Hp.
    + unfold track_ingress. rewrite Hp. cbn [fst].
      repeat split; try done. lia.
    + rewrite (track_ingress_parsed bo m k skb t Hp).
      destruct (flow_map m !! ingress_flow_key t) eqn:Hold;
        cbn [fst flow_map events config set_flow_map].
      * split; [done |]. split; [done |]. rewrite dom_alter_L.
        split; [done |]. rewrite <- !size_dom, dom_alter_L. lia.
      * repeat split; try done. lia.
  - destruct (flush_flows_ret m ctx) as (_ & Hfm & Hcfg).
    rewrite Hfm, Hcfg. split; [done |].
    split; [apply flush_flows_events |]. split; [done | lia].
Qed.

(** X5: Whatever the three programs are run on, in whatever order, no flow
    entry is ever removed, the table never grows beyond [MAX_ENTRIES]
    entries, no queued event is removed and the configuration map is left
    alone. *)
Theorem flow_table_never_shrinks (bo : byte_order) (m : maps)
    (cs : list hook_call) :
  config (run_hooks bo m cs) = config m /\
  events m `prefix_of` events (run_hooks bo m cs) /\
  dom (flow_map m) ⊆ dom (flow_map (run_hooks bo m cs)) /\
  (size (flow_map (run_hooks bo m cs))
   <= Nat.max (size (flow_map m)) (Z.to_nat MAX_ENTRIES))%nat.
Proof.
  revert m. induction cs as [| c cs IH]; intros m.
  - cbn. repeat split; try done. lia.
  - rewrite run_hooks_cons.
    destruct (IH (run_hook bo m c)) as (Hcfg & Hev & Hdom & Hsize).
    destruct (run_hook_monotone bo m c) as (Hcfg' & Hev' & Hdom' & Hsize').
    split; [congruence |]. split; [by etrans |]. split; [by etrans |]. lia.
Qed.

Lemma run_hook_identity (bo : byte_order) (m : maps) (c : hook_call)
    (key : flow_key) (old : flow_metrics) :
  flow_map m !! key = Some old ->
  exists new, flow_map (run_hook bo m c) !! key = Some new /\
              same_identity new old.
Proof.
  intros Hold. destruct c as [k skb | k skb | ctx]; cbn [run_hook].
  - rewrite track_egress_lookup, Hold.
    destruct (outbound_len bo key (Egress k skb)); eexists; split; done.
  - rewrite track_ingress_lookup, Hold.
    destruct (inbound_len bo key (Ingress k skb)); eexists; split; done.
  - destruct (flush_flows_ret m ctx) as (_ & -> & _). by exists old.
Qed.

Lemma run_hooks_identity (bo : byte_order) (key : flow_key)
    (cs : list hook_call) :
  forall (m : maps) (old : flow_metrics),
    flow_map m !! key = Some old ->
    exists new, flow_map (run_hooks bo m cs) !! key = Some new /\
                same_identity new old.
Proof.
  induction cs as [| c cs IH]; intros m old Hold.
  - by exists old.
  - rewrite run_hooks_cons.
    destruct (run_hook_identity bo m c key old Hold) as (mid & Hmid & Hid).
    destruct (IH _ mid Hmid) as (new & Hnew & Hid').
    exists new. split; [exact Hnew |].
    destruct Hid as (? & ? & ? & ?), Hid' as (? & ? & ? & ?).
    repeat split; congruence.
Qed.

(** X6: The start time and the process id, user id and name of a flow are
    those of the outbound run that created its entry: whatever runs follow,
    outbound or inbound, from whatever task, they stay as that first run
    wrote them. *)
Theorem flow_identity_is_first_sender (bo : byte_order) (m : maps)
    (k : kernel) (skb : sk_buff) (t : l4_tuple) (cs : list hook_call) :
  parse_l4 bo skb = Headers t ->
  flow_map m !! egress_flow_key t = None ->
  Z.of_nat (size (flow_map m)) < MAX_ENTRIES ->
  exists new,
    flow_map (run_hooks bo m (Egress k skb :: cs)) !! egress_flow_key t
    = Some new /\
    start_time_ns new = ktime_get_ns k /\
    pid new = Z.shiftr (current_pid_tgid k) 32 mod 2 ^ 32 /\
    uid new = Z.land (current_uid_gid k) 0xFFFFFFFF /\
    comm new = current_comm k.
Proof.
  intros Hp Hnone Hroom. rewrite run_hooks_cons.
  assert (Hcreated :
    flow_map (run_hook bo m (Egress k skb)) !! egress_flow_key t
    = Some (new_flow_metrics k skb (ktime_get_ns k))).
  { cbn [run_hook]. rewrite track_egress_lookup. unfold outbound_len.
    rewrite Hp, decide_True, Hnone by done.
    by destruct (Z.ltb_spec (Z.of_nat (size (flow_map m))) MAX_ENTRIES);
      [| lia]. }
  destruct (run_hooks_identity bo _ cs _ _ Hcreated)
    as (new & Hnew & Hst & Hpid & Huid & Hcomm).
  exists new. split; [exact Hnew |]. by rewrite Hst, Hpid, Huid, Hcomm.
Qed.

Lemma flow_identity_is_first_sender_witness :
  parse_l4 LittleEndian outbound_external = Headers example_tuple /\
  flow_map no_flows !! egress_flow_key example_tuple = None /\
  Z.of_nat (size (flow_map no_flows)) < MAX_ENTRIES /\
  exists new,
    flow_map (run_hooks LittleEndian no_flows
                [Egress some_task outbound_external;
                 Ingress some_task inbound_reply])
      !! egress_flow_key example_tuple = Some new /\
    start_time_ns new = 1000.
Proof.
  split; [reflexivity |]. split; [reflexivity |]. split; [reflexivity |].
  destruct (flow_identity_is_first_sender LittleEndian no_flows some_task
              outbound_external example_tuple
              [Ingress some_task inbound_reply] eq_refl eq_refl eq_refl)
    as (new & Hnew & Hst & _).
  exists new. split; [exact Hnew | exact Hst].
Defined.

(** X7: The first outbound packet of a flow followed by a packet of the
    reverse direction: the entry the first one created is the one the
    second one updates, so that it then holds one packet and its length in
    each direction, the start time of the first and the last-seen time of
    the second. *)
Theorem outbound_then_reply_share_entry (bo : byte_order) (m : maps)
    (k k' : kernel) (skb skb' : sk_buff) (t t' : l4_tuple) :
  parse_l4 bo skb = Headers t -> parse_l4 bo skb' = Headers t' ->
  saddr t' = daddr t -> daddr t' = saddr t ->
  source t' = dest t -> dest t' = source t -> ip_proto t' = ip_proto t ->
  flow_map m !! egress_flow_key t = None ->
  Z.of_nat (size (flow_map m)) < MAX_ENTRIES ->
  flow_map (run_hooks bo m [Egress k skb; Ingress k' skb'])
    !! egress_flow_key t
  = Some {| bytes_sent := skb_len skb;
            bytes_received := skb_len skb' mod 2 ^ 64;
            packets_sent := 1; packets_received := 1;
            start_time_ns := ktime_get_ns k;
            last_seen_ns := ktime_get_ns k';
            pid := Z.shiftr (current_pid_tgid k) 32 mod 2 ^ 32;
            uid := Z.land (current_uid_gid k) 0xFFFFFFFF;
            comm := current_comm k |}.
Proof.
  intros Hp Hp' Hs Hd Hsp Hdp Hpr Hnone Hroom.
  assert (Hkey : ingress_flow_key t' = egress_flow_key t).
  { unfold ingress_flow_key, egress_flow_key.
    by rewrite Hs, Hd, Hsp, Hdp, Hpr. }
  rewrite !run_hooks_cons. cbn [run_hooks foldl run_hook].
  rewrite track_ingress_lookup. unfold inbound_len.
  rewrite Hp', decide_True by done.
  rewrite track_egress_lookup. unfold outbound_len.
  rewrite Hp, decide_True, Hnone by done.
  by destruct (Z.ltb_spec (Z.of_nat (size (flow_map m))) MAX_ENTRIES);
    [| lia].
Qed.

Lemma outbound_then_reply_share_entry_witness :
  flow_map (run_hooks LittleEndian no_flows
              [Egress some_task outbound_external;
               Ingress some_task inbound_reply])
    !! egress_flow_key example_tuple
  = Some {| bytes_sent := 100; bytes_received := 1500;
            packets_sent := 1; packets_received := 1;
            start_time_ns := 1000; last_seen_ns := 1000;
            pid := 42; uid := 500; comm := [] |}.
Proof.
  apply (outbound_then_reply_share_entry LittleEndian no_flows some_task
           some_task outbound_external inbound_reply example_tuple
           reply_tuple); reflexivity.
Defined.

End flow_table_more.

(** ** The flush walker and its events *)

Section flush_events.
Import flow_tracker.

(** X9: The events a walk appends are snapshots of distinct flows of the table,
    each carrying the key and the metrics the table holds for it, with
    [event_type] and [direction] 0; their number is the number of flows or
    the room in the ring buffer, whichever is smaller, so that with room
    for all every flow is reported exactly once. *)
Theorem flush_events_are_faithful (m : maps) :
  exists new,
    events (fst (flush_walk m)) = events m ++ new /\
    length new
    = Nat.min (ringbuf_free events_size sizeof_flow_event (events m))
        (size (flow_map m)) /\
    NoDup (key <$> new) /\
    Forall (fun ev => flow_map m !! key ev = Some (metrics ev) /\
                      event_type ev = 0 /\ direction ev = 0) new /\
    ((size (flow_map m)
      <= ringbuf_free events_size sizeof_flow_event (events m))%nat ->
     forall k v, flow_map m !! k = Some v -> snapshot (k, v) ∈ new).
Proof.
  exists (take (ringbuf_free events_size sizeof_flow_event (events m))
            (snapshot <$> map_to_list (flow_map m))).
  split; [| split; [| split; [| split]]].
  - unfold flush_walk. rewrite iterate_flush_spec; [done |].
    intros [k v] Hkv. by apply elem_of_map_to_list in Hkv.
  - by rewrite length_take, length_fmap, length_map_to_list.
  - rewrite fmap_take, <- list_fmap_compose.
    eapply sublist_NoDup; [| apply sublist_take].
    apply (NoDup_fst_map_to_list (flow_map m)).
  - apply Forall_forall. intros ev Hev.
    apply subseteq_take, list_elem_of_fmap in Hev as ([k v] & -> & Hkv).
    apply elem_of_map_to_list in Hkv. done.
  - intros Hroom k v Hkv.
    rewrite take_ge by (rewrite length_fmap, length_map_to_list; lia).
    apply list_elem_of_fmap. exists (k, v). split; [done |].
    by apply elem_of_map_to_list.
Qed.

End flush_events.

(** ** Concurrent updates of an existing flow *)

Section atomic_updates.
Import flow_tracker.

Lemma sum_Z_insert {A : Type} (f : A -> Z) (l : list A) (i : nat) (x y : A) :
  l !! i = Some x ->
  sum_Z (f <$> <[i := y]> l) = sum_Z (f <$> l) - f x + f y.
Proof.
  revert i. induction l as [| a l IH]; intros i Hi; [done |].
  destruct i as [| i].
  - injection Hi as ->. unfold sum_Z. cbn. lia.
  - cbn [lookup list_lookup] in Hi. specialize (IH i Hi).
    unfold sum_Z in *.
    change (<[S i := y]> (a :: l)) with (a :: <[i := y]> l).
    rewrite !fmap_cons. cbn [foldr]. lia.
Qed.

Lemma cpu_step_updating (key : flow_key) (old : flow_metrics) (B P : Z)
    (fm : gmap flow_key flow_metrics) (cpus : list cpu) (i : nat) (c : cpu) :
  updating key old B P fm cpus -> cpus !! i = Some c ->
  updating key old B P (fst (cpu_step fm c)) (<[i := snd (cpu_step fm c)]> cpus).
Proof.
  intros (Hall & cur & Hcur & Hbs & Hps & HB & HP & Hbr & Hpr & Hid) Hi.
  pose proof (proj1 (Forall_lookup _ _) Hall i c Hi) as [Hkey Hpc].
  pose proof (fun y => sum_Z_insert pending_bytes cpus i c y Hi) as Hsb.
  pose proof (fun y => sum_Z_insert pending_packets cpus i c y Hi) as Hsp.
  destruct Hid as (Hst & Hpid & Huid & Hcomm).
  set (Sb := sum_Z (pending_bytes <$> cpus)) in *.
  set (Sp := sum_Z (pending_packets <$> cpus)) in *.
  unfold cpu_step. rewrite Hkey.
  destruct (cpu_pc c) eqn:Hc; [| done | | | |].
  - (* lookup: the entry is there *)
    rewrite Hcur. cbn [fst snd]. split.
    + apply Forall_insert; [done |]. by split.
    + exists cur. rewrite Hsb, Hsp.
      unfold pending_bytes, pending_packets. rewrite Hc. cbn.
      rewrite !Z.sub_add. done.
  - (* add to bytes_sent *)
    cbn [fst snd]. split.
    + apply Forall_insert; [done |]. by split.
    + exists (add_bytes_sent (skb_len (cpu_skb c)) cur).
      rewrite lookup_alter_eq, Hcur, Hsb, Hsp.
      unfold pending_bytes, pending_packets. rewrite Hc. cbn.
      pose proof (add64_range (bytes_sent cur) (skb_len (cpu_skb c))).
      repeat split; try done; try lia.
      * rewrite <- HB. unfold add64. rewrite Zplus_mod_idemp_l.
        f_equal. lia.
      * rewrite <- HP. f_equal. lia.
  - (* add to packets_sent *)
    cbn [fst snd]. split.
    + apply Forall_insert; [done |]. by split.
    + exists (add_packets_sent 1 cur).
      rewrite lookup_alter_eq, Hcur, Hsb, Hsp.
      unfold pending_bytes, pending_packets. rewrite Hc. cbn.
      pose proof (add64_range (packets_sent cur) 1).
      repeat split; try done; try lia.
      * rewrite <- HB. f_equal. lia.
      * rewrite <- HP. unfold add64. rewrite Zplus_mod_idemp_l.
        f_equal. lia.
  - (* store last_seen_ns *)
    cbn [fst snd]. split.
    + apply Forall_insert; [done |]. by split.
    + exists (set_last_seen_ns (ktime_get_ns (cpu_kernel c)) cur).
      rewrite lookup_alter_eq, Hcur, Hsb, Hsp.
      unfold pending_bytes, pending_packets. rewrite Hc. cbn.
      repeat split; try done; try lia.
      * rewrite <- HB. f_equal. lia.
      * rewrite <- HP. f_equal. lia.
  - (* returned *)
    cbn [fst snd]. rewrite list_insert_id by done. split; [done |].
    exists cur. done.
Qed.

Lemma run_schedule_updating (key : flow_key) (old : flow_metrics) (B P : Z)
    (sched : list nat) :
  forall (fm : gmap flow_key flow_metrics) (cpus : list cpu),
    updating key old B P fm cpus ->
    updating key old B P (fst (run_schedule sched fm cpus))
      (snd (run_schedule sched fm cpus)).
Proof.
  induction sched as [| i sched IH]; intros fm cpus Hinv; [done |].
  cbn [run_schedule]. destruct (cpus !! i) as [c |] eqn:Hi.
  - apply IH. by apply cpu_step_updating.
  - by apply IH.
Qed.

Lemma returned_nothing_pending (cpus : list cpu) :
  forallb has_returned cpus = true ->
  sum_Z (pending_bytes <$> cpus) = 0 /\ sum_Z (pending_packets <$> cpus) = 0.
Proof.
  induction cpus as [| c cpus IH]; [done |].
  cbn [forallb]. intros [Hc Hrest]%andb_true_iff.
  destruct (IH Hrest) as [Hb Hp].
  unfold sum_Z in *. cbn [fmap list_fmap foldr]. rewrite Hb, Hp.
  unfold has_returned in Hc. unfold pending_bytes, pending_packets.
  by destruct (cpu_pc c).
Qed.

Lemma entering_all_pending (key : flow_key) (cpus : list cpu) :
  Forall (fun c => cpu_key c = key /\ cpu_pc c = AtLookup) cpus ->
  sum_Z (pending_bytes <$> cpus)
  = sum_Z ((fun c => skb_len (cpu_skb c)) <$> cpus) /\
  sum_Z (pending_packets <$> cpus) = Z.of_nat (length cpus).
Proof.
  induction 1 as [| c cpus [_ Hc] _ [IHb IHp]]; [done |].
  unfold sum_Z in *. cbn [fmap list_fmap foldr length]. rewrite IHb, IHp.
  unfold pending_bytes, pending_packets. rewrite Hc. lia.
Qed.

(** X8: Any number of CPUs running [track_egress] at once on packets of a flow
    whose entry exists, interleaved in any way: once all have returned, the
    entry counts every one of the packets and every one of their bytes
    (modulo 2^64), and its received counters, start time and process
    identity are untouched. *)
Theorem concurrent_updates_are_not_lost (sched : list nat)
    (fm : gmap flow_key flow_metrics) (cpus : list cpu) (key : flow_key)
    (old : flow_metrics) :
  fm !! key = Some old -> counters_in_range old ->
  Forall (fun c => cpu_key c = key /\ cpu_pc c = AtLookup) cpus ->
  forallb has_returned (snd (run_schedule sched fm cpus)) = true ->
  exists new,
    fst (run_schedule sched fm cpus) !! key = Some new /\
    bytes_sent new
    = (bytes_sent old + sum_Z ((fun c => skb_len (cpu_skb c)) <$> cpus))
      mod 2 ^ 64 /\
    packets_sent new
    = (packets_sent old + Z.of_nat (length cpus)) mod 2 ^ 64 /\
    bytes_received new = bytes_received old /\
    packets_received new = packets_received old /\
    same_identity new old.
Proof.
  intros Hold (Hbs & Hps & _ & _) Henter Hdone.
  destruct (entering_all_pending key cpus Henter) as [Hpb Hpp].
  assert (Hinit :
    updating key old
      ((bytes_sent old + sum_Z ((fun c => skb_len (cpu_skb c)) <$> cpus))
       mod 2 ^ 64)
      ((packets_sent old + Z.of_nat (length cpus)) mod 2 ^ 64) fm cpus).
  { split.
    - eapply Forall_impl; [exact Henter |]. intros c [Hk Hc].
      split; [done |]. by rewrite Hc.
    - exists old. rewrite Hpb, Hpp. repeat split; try done; lia. }
  destruct (run_schedule_updating key old _ _ sched fm cpus Hinit)
    as (_ & new & Hnew & Hnb & Hnp & HB & HP & Hbr & Hpr & Hid).
  destruct (returned_nothing_pending _ Hdone) as [Hzb Hzp].
  rewrite Hzb, Z.add_0_r, Z.mod_small in HB by lia.
  rewrite Hzp, Z.add_0_r, Z.mod_small in HP by lia.
  exists new. done.
Qed.

Lemma concurrent_updates_are_not_lost_witness :
  flow_map one_flow !! example_key
  = Some (new_flow_metrics some_task outbound_external 1000) /\
  exists new,
    fst (run_schedule [0; 1; 1; 0; 0; 1; 1; 0]%nat (flow_map one_flow)
           (first_sight 2 example_key some_task outbound_external))
      !! example_key = Some new /\
    packets_sent new = (1 + Z.of_nat 2) mod 2 ^ 64.
Proof.
  split; [reflexivity |].
  destruct (concurrent_updates_are_not_lost [0; 1; 1; 0; 0; 1; 1; 0]%nat
              (flow_map one_flow)
              (first_sight 2 example_key some_task outbound_external)
              example_key
              (new_flow_metrics some_task outbound_external 1000))
    as (new & Hnew & _ & Hp & _).
  - reflexivity.
  - unfold counters_in_range. cbn. lia.
  - repeat constructor.
  - vm_compute. reflexivity.
  - exists new. split; [exact Hnew | exact Hp].
Defined.

End atomic_updates.
